(** * ztraining: the activity normalisation pipeline

    A shallow embedding of [src/ztraining/ztraining.py]: the FIT record
    parser ([parse_fit_records]), the activity normaliser
    ([_process_activity]), the great-circle wrapper ([measure_distance]) and
    the power-curve calculator ([calc_max_powers]).

    Numeric model.  pandas stores every numeric column as float64.  A cell is
    modelled by [fval]: a missing value (NaN), one of the two infinities, or a
    finite value carried as an exact rational.  Arithmetic follows IEEE-754 on
    the special values and is exact on finite ones: binary rounding error,
    overflow and the sign of zero are not represented.  Timestamps are integer
    nanoseconds, as in [pd.Timestamp]. *)

From Stdlib Require Import QArith Qround Qabs Qminmax Lqa.
From stdpp Require Import base option list sorting gmap strings pretty.

(** ** Float cells *)

Inductive fval : Type :=
  | NaN
  | NInf
  | Fin (q : Q)
  | PInf.

#[global] Instance fval_inhabited : Inhabited fval := populate NaN.

#[global] Instance Q_eq_dec : EqDecision Q.
Proof. solve_decision. Defined.

#[global] Instance fval_eq_dec : EqDecision fval.
Proof. solve_decision. Defined.

(** [pd.isnull] / [np.isnan] on a cell. *)
Definition isnull (x : fval) : bool :=
  match x with NaN => true | _ => false end.

Definition Qlt_bool (a b : Q) : bool := negb (Qle_bool b a).

(** [x < y] and [x <= y] on floats: every comparison with NaN is false. *)
Definition fltb (x y : fval) : bool :=
  match x, y with
  | NaN, _ | _, NaN => false
  | _, NInf => false
  | NInf, _ => true
  | PInf, _ => false
  | Fin a, Fin b => Qlt_bool a b
  | Fin _, PInf => true
  end.

Definition fleb (x y : fval) : bool :=
  match x, y with
  | NaN, _ | _, NaN => false
  | NInf, _ => true
  | _, PInf => true
  | PInf, _ => false
  | _, NInf => false
  | Fin a, Fin b => Qle_bool a b
  end.

Definition fgtb (x y : fval) : bool := fltb y x.
Definition fgeb (x y : fval) : bool := fleb y x.

Definition fneg (x : fval) : fval :=
  match x with
  | NaN => NaN
  | NInf => PInf
  | Fin a => Fin (- a)
  | PInf => NInf
  end.

Definition fadd (x y : fval) : fval :=
  match x, y with
  | NaN, _ | _, NaN => NaN
  | PInf, NInf | NInf, PInf => NaN
  | PInf, _ | _, PInf => PInf
  | NInf, _ | _, NInf => NInf
  | Fin a, Fin b => Fin (a + b)
  end.

Definition fsub (x y : fval) : fval := fadd x (fneg y).

(** The infinity carrying the sign of [a]; NaN when [a] is zero. *)
Definition inf_of_sign (a : Q) : fval :=
  match (a ?= 0)%Q with
  | Gt => PInf
  | Lt => NInf
  | Eq => NaN
  end.

Definition fmul (x y : fval) : fval :=
  match x, y with
  | NaN, _ | _, NaN => NaN
  | Fin a, Fin b => Fin (a * b)
  | Fin a, PInf | PInf, Fin a => inf_of_sign a
  | Fin a, NInf | NInf, Fin a => inf_of_sign (- a)
  | PInf, PInf | NInf, NInf => PInf
  | PInf, NInf | NInf, PInf => NInf
  end.

(** numpy division: a finite value over zero is an infinity of its sign, and
    zero over zero is NaN; nothing is raised. *)
Definition fdiv (x y : fval) : fval :=
  match x, y with
  | NaN, _ | _, NaN => NaN
  | Fin a, Fin b => if Qeq_bool b 0 then inf_of_sign a else Fin (a / b)
  | Fin _, (PInf | NInf) => Fin 0
  | PInf, Fin b => if Qlt_bool b 0 then NInf else PInf
  | NInf, Fin b => if Qlt_bool b 0 then PInf else NInf
  | (PInf | NInf), (PInf | NInf) => NaN
  end.

(** [Series.clip(upper=u)]: NaN stays NaN, everything above [u] becomes [u]. *)
Definition clip_upper (u : Q) (x : fval) : fval :=
  match x with
  | NaN => NaN
  | NInf => NInf
  | Fin a => if Qlt_bool u a then Fin u else Fin a
  | PInf => Fin u
  end.

(** Round half to even, the rule of [np.rint]. *)
Definition rint (x : Q) : Z :=
  let f := Qfloor x in
  match (x - inject_Z f ?= 1 # 2)%Q with
  | Lt => f
  | Gt => (f + 1)%Z
  | Eq => if Z.even f then f else (f + 1)%Z
  end.

Definition pow10 (d : nat) : positive := Z.to_pos (10 ^ Z.of_nat d).

(** [np.round(x, d)] on a finite value: scale, [rint], scale back. *)
Definition Qround_dec (d : nat) (x : Q) : Q :=
  Qred (rint (x * inject_Z (Z.pos (pow10 d))) # pow10 d).

Definition fround (d : nat) (x : fval) : fval :=
  match x with
  | Fin a => Fin (Qround_dec d a)
  | _ => x
  end.

Definition fceil (x : fval) : fval :=
  match x with
  | Fin a => Fin (inject_Z (Qceiling a))
  | _ => x
  end.

(** ** Series (one column) *)

Abbreviation Series := (list fval).

(** [Series.shift()]: one row down, NaN on top, same length. *)
Definition shift (xs : Series) : Series :=
  take (length xs) (NaN :: xs).

(** [Series.diff()]. *)
Definition diff (xs : Series) : Series :=
  zip_with fsub xs (shift xs).

Definition fillna (v : fval) (xs : Series) : Series :=
  fmap (λ x, if isnull x then v else x) xs.

(** [Series.cumsum()] (skipna): a NaN cell stays NaN and is left out of the
    running sum. *)
Fixpoint cumsum_from (acc : fval) (xs : Series) : Series :=
  match xs with
  | [] => []
  | x :: xs' =>
      if isnull x then NaN :: cumsum_from acc xs'
      else let acc' := fadd acc x in acc' :: cumsum_from acc' xs'
  end.

Definition cumsum (xs : Series) : Series := cumsum_from (Fin 0) xs.

Definition dropna (xs : Series) : Series :=
  filter (λ x, negb (isnull x)) xs.

Definition fmax2 (x y : fval) : fval := if fltb x y then y else x.
Definition fmin2 (x y : fval) : fval := if fltb y x then y else x.

(** [Series.max()], [Series.min()], [Series.sum()], [Series.mean()]: NaN
    cells are skipped; max, min and mean of nothing are NaN, the sum is 0. *)
Definition series_max (xs : Series) : fval :=
  match dropna xs with
  | [] => NaN
  | x :: r => foldl fmax2 x r
  end.

Definition series_min (xs : Series) : fval :=
  match dropna xs with
  | [] => NaN
  | x :: r => foldl fmin2 x r
  end.

Definition series_sum (xs : Series) : fval :=
  foldl fadd (Fin 0) (dropna xs).

Definition Qnat (n : nat) : Q := inject_Z (Z.of_nat n).

Definition series_mean (xs : Series) : fval :=
  match dropna xs with
  | [] => NaN
  | obs => fdiv (foldl fadd (Fin 0) obs) (Fin (Qnat (length obs)))
  end.

(** The observations a rolling window counts: pandas turns infinities into
    NaN before a rolling aggregation, so only finite cells are kept. *)
Definition finite_obs (xs : Series) : list Q :=
  omap (λ x, match x with Fin a => Some a | _ => None end) xs.

Definition Qsum (l : list Q) : Q := foldr Qplus 0%Q l.

(** The rows a trailing window of [w] rows ending at row [i] covers. *)
Definition window {A} (w i : nat) (xs : list A) : list A :=
  drop (S i - w) (take (S i) xs).

(** [Series.rolling(w, min_periods=m).mean()]. *)
Definition rolling_mean (w m : nat) (xs : Series) : Series :=
  imap (λ i _,
          let obs := finite_obs (window w i xs) in
          if (m <=? length obs)%nat
          then Fin (Qsum obs / Qnat (length obs))
          else NaN) xs.

(** ** Exceptions *)

(** The Python exceptions the modelled code raises. *)
Inductive exn : Type :=
  | AssertionError (msg : string)
  | KeyError (key : string)
  | IndexError
  | TypeError.

Inductive result (A : Type) : Type :=
  | Ok (a : A)
  | Raise (e : exn).
Arguments Ok {A} a.
Arguments Raise {A} e.

#[global] Instance result_ret : MRet result := λ A, Ok.
#[global] Instance result_bind : MBind result := λ A B f r,
  match r with
  | Ok a => f a
  | Raise e => Raise e
  end.

(** ** Data model *)

(** One row of the frame a parser hands to the normaliser (the [OrderedDict]
    built per trackpoint or record).  [dtime] is in nanoseconds. *)
Record RawSample : Type := {
  dtime : Z;
  latt : fval;
  long : fval;
  elevation : fval;
  distance : fval;
  hr : fval;
  cadence : fval;
  speed : fval;
  power : fval;
  temp : fval;
}.

(** One row of the frame the normaliser returns, in its column order. *)
Record CleanedSample : Type := {
  c_dtime : Z;
  c_duration : fval;
  c_mov_duration : nat;
  c_latt : fval;
  c_long : fval;
  c_elevation : fval;
  c_movement : fval;
  c_distance : fval;
  c_hr : fval;
  c_cadence : fval;
  c_speed : fval;
  c_power : fval;
  c_temp : fval;
}.

(** The summary keys [_process_activity] adds to [meta]; durations are in
    seconds. *)
Record Summary : Type := {
  s_distance : fval;
  s_duration : fval;
  s_mov_duration : fval;
  s_elevation : fval;
  s_speed_avg : fval;
  s_speed_max : fval;
  s_hr_avg : fval;
  s_hr_max : fval;
  s_power_avg : fval;
  s_power_max : fval;
  s_cadence_avg : fval;
  s_cadence_max : fval;
  s_temp_avg : fval;
  s_temp_max : fval;
}.

(** The [meta] dictionary.  [m_summary] is [None] until the normaliser has
    filled the summary keys in. *)
Record Meta : Type := {
  m_dtime : option Z;
  m_sport : string;
  m_title : string;
  m_src_file : string;
  m_summary : option Summary;
}.

(** ** The normaliser: [_process_activity] *)

Definition MAX_ELE : Q := 9000.
Definition MAX_HR : Q := 250.
Definition MAX_POWER : Q := 2500.
Definition MAX_CADENCE : Q := 210.
Definition MAX_SPEED : Q := 100.
Definition MAX_TEMP : Q := 55.

(** Lines 676-684: [astype('float')] on every column, [clip(upper=...)] on
    six of them. *)
Definition clamp_sample (r : RawSample) : RawSample :=
  {| dtime := dtime r;
     latt := latt r;
     long := long r;
     elevation := clip_upper MAX_ELE (elevation r);
     distance := distance r;
     hr := clip_upper MAX_HR (hr r);
     cadence := clip_upper MAX_CADENCE (cadence r);
     speed := clip_upper MAX_SPEED (speed r);
     power := clip_upper MAX_POWER (power r);
     temp := clip_upper MAX_TEMP (temp r) |}.

(** The lookup table of lines 730-741. *)
Definition sports : gmap string string :=
  list_to_map
    [ ("biking", "cycling");
      ("cycling", "cycling");
      ("cycling_transportation", "cycling");
      ("cycling_sport", "cycling");
      ("ride", "cycling");
      ("virtualride", "cycling");
      ("virtualrun", "running");
      ("run", "running");
      ("running", "running");
      ("other", "other") ]%string.

Definition max_movement : Q := MAX_SPEED * 1000 / 3600.

(** Lines 701-704: round to three decimals, then cap. *)
Definition round_clip_movement (movement : Series) : Series :=
  fmap (clip_upper max_movement) (fmap (fround 3) movement).

(** Lines 707-708: seconds elapsed since the first row. *)
Definition duration_column (dtimes : list Z) : Series :=
  match dtimes with
  | [] => []
  | start_time :: _ =>
      fmap (λ t, Fin ((t - start_time) # 1000000000)) dtimes
  end.

(** Lines 711-717: speed from movement and the time step, then a trailing
    three-row mean. *)
Definition speed_column (movement duration : Series) : Series :=
  let tick_elapsed := fillna (Fin 1) (diff duration) in
  let speed :=
    zip_with fdiv
      (fmap (λ m, fdiv (fmul m (Fin 3600)) (Fin 1000)) movement)
      tick_elapsed in
  let speed := fmap (λ x, match x with PInf => NaN | _ => x end) speed in
  let speed := fmap (λ x, if fgtb x (Fin 100) then Fin 100 else x) speed in
  rolling_mean 3 1 speed.

(** Lines 724-725: the rows [df['movement'] >= min_movement] selects, as
    positions in the frame. *)
Definition min_movement (min_kph : Q) : Q := min_kph * 1000 / 3600.

Definition kept_rows (min_kph : Q) (movement : Series) : list nat :=
  filter (λ i, fgeb (movement !!! i) (Fin (min_movement min_kph)))
         (seq 0 (length movement)).

(** Boolean-mask selection of one column. *)
Definition select {A} `{Inhabited A} (kept : list nat) (col : list A) : list A :=
  fmap (λ i, col !!! i) kept.

Definition last_or_nan (xs : Series) : fval := default NaN (last xs).

(** Lines 744-765, on the columns of the filtered frame. *)
Definition summarize (n : nat) (distance duration elevation speed hr power
                      cadence temp : Series) : Summary :=
  let s_distance := fround 3 (last_or_nan distance) in
  let s_mov_duration := Fin (Qnat (n - 1)) in
  let climb := diff (rolling_mean 6 6 elevation) in
  {| s_distance := s_distance;
     s_duration := last_or_nan duration;
     s_mov_duration := s_mov_duration;
     s_elevation :=
       fround 1 (series_sum (filter (λ c, fgtb c (Fin 0)) climb));
     s_speed_avg :=
       fround 1 (fdiv s_distance (fdiv s_mov_duration (Fin 3600)));
     s_speed_max := fround 1 (series_max speed);
     s_hr_avg := fround 2 (series_mean hr);
     s_hr_max := series_max hr;
     s_power_avg := fround 2 (series_mean power);
     s_power_max := series_max power;
     s_cadence_avg :=
       fround 2 (series_mean (filter (λ c, fgtb c (Fin 0)) cadence));
     s_cadence_max := fceil (series_max cadence);
     s_temp_avg := fround 1 (series_mean temp);
     s_temp_max := series_max temp |}.

(** Lines 767-780: every summary key is NaN. *)
Definition empty_summary : Summary :=
  {| s_distance := NaN; s_duration := NaN; s_mov_duration := NaN;
     s_elevation := NaN; s_speed_avg := NaN; s_speed_max := NaN;
     s_hr_avg := NaN; s_hr_max := NaN; s_power_avg := NaN;
     s_power_max := NaN; s_cadence_avg := NaN; s_cadence_max := NaN;
     s_temp_avg := NaN; s_temp_max := NaN |}.

Section Normalizer.

(** [geopy.distance.distance(p1, p2).m], the one library call of the
    pipeline, taken as a total function of the two points. *)
Variable geodesic : fval * fval → fval * fval → fval.

(** Lines 791-803. *)
Definition measure_distance (lat1 lon1 lat2 lon2 : fval) : fval :=
  if isnull lat1 || isnull lat2 then NaN
  else geodesic (lat1, lon1) (lat2, lon2).

(** Lines 690-695: movement from consecutive coordinates, and the distance
    integrated from it. *)
Definition gps_movement (latts longs : Series) : Series :=
  let prev_latt := shift latts in
  let prev_long := shift longs in
  fillna (Fin 0)
    (zip_with (λ '(pla, plo) '(la, lo), measure_distance pla plo la lo)
              (zip prev_latt prev_long) (zip latts longs)).

(** Line 695. *)
Definition gps_distance (movement : Series) : Series :=
  fmap (λ m, fdiv m (Fin 1000)) (cumsum movement).

(** Lines 686-700: the [movement] column as first inserted, and the
    [distance] column, before rounding. *)
Definition movement_step (df : list RawSample)
  : result (Series * Series) :=
  match df with
  | [] => Raise IndexError
  | first :: _ =>
      '(movement, distances) ←
        (if isnull (distance first) then
           if isnull (latt first) then
             Raise (AssertionError
               "Unable to calculate distance because GPS coordinates are null")
           else
             let movement := gps_movement (latt <$> df) (long <$> df) in
             Ok (movement, gps_distance movement)
         else
           Ok (diff (fmap (λ d, fmul d (Fin 1000)) (distance <$> df)),
               distance <$> df));
      Ok (<[0%nat := fmul (distances !!! 0%nat) (Fin 1000)]> movement,
          distances)
  end.

(** Lines 665-788.  [copy] only chooses between the caller's frame and a
    copy of it and has no counterpart here; [min_kph] defaults to 3 in the
    source.  The exceptions come in the order of the source: the movement
    step first, the sport lookup after the stationary rows are removed. *)
Definition _process_activity (df : list RawSample) (meta : Meta)
    (min_kph : Q) : result (list CleanedSample * Meta) :=
  let df := clamp_sample <$> df in
  '(movement, distances) ← movement_step df;
  let movement := round_clip_movement movement in
  let dtimes := dtime <$> df in
  let durations := duration_column dtimes in
  let speeds := speed_column movement durations in
  let powers := rolling_mean 2 1 (power <$> df) in
  let hrs := rolling_mean 2 1 (hr <$> df) in
  let cadences := rolling_mean 2 1 (cadence <$> df) in
  let temps := rolling_mean 2 1 (temp <$> df) in
  let kept := kept_rows min_kph movement in
  match sports !! m_sport meta with
  | None => Raise (KeyError (m_sport meta))
  | Some sport =>
      let summary :=
        if decide (kept = []) then empty_summary
        else summarize (length kept)
               (select kept distances) (select kept durations)
               (select kept (elevation <$> df)) (select kept speeds)
               (select kept hrs) (select kept powers)
               (select kept cadences) (select kept temps) in
      let meta :=
        {| m_dtime := m_dtime meta; m_sport := sport;
           m_title := m_title meta; m_src_file := m_src_file meta;
           m_summary := Some summary |} in
      Ok (imap (λ k i,
                  {| c_dtime := dtimes !!! i;
                     c_duration := durations !!! i;
                     c_mov_duration := k;
                     c_latt := (latt <$> df) !!! i;
                     c_long := (long <$> df) !!! i;
                     c_elevation := fround 2 ((elevation <$> df) !!! i);
                     c_movement := movement !!! i;
                     c_distance := fround 3 (distances !!! i);
                     c_hr := hrs !!! i;
                     c_cadence := cadences !!! i;
                     c_speed := fround 2 (speeds !!! i);
                     c_power := powers !!! i;
                     c_temp := temps !!! i |}) kept,
          meta)
  end.

End Normalizer.

(** ** The FIT record parser: [parse_fit_records] *)

(** The values a decoded FIT record holds. *)
Inductive pyval : Type :=
  | PyNone
  | PyNum (x : fval)
  | PyTime (t : Z).

(** [data.get(key, default)]. *)
Definition dict_get (data : gmap string pyval) (key : string)
    (dflt : pyval) : pyval :=
  default dflt (data !! key).

(** [pd.isnull] on a record value. *)
Definition py_isnull (v : pyval) : bool :=
  match v with
  | PyNone => true
  | PyNum x => isnull x
  | PyTime _ => false
  end.

(** Truth value of a record value, as [assert raw_time] tests it. *)
Definition py_truthy (v : pyval) : bool :=
  match v with
  | PyNone => false
  | PyNum (Fin a) => negb (Qeq_bool a 0)
  | PyNum _ => true
  | PyTime _ => true
  end.

(** A cell of a numeric column: [None] becomes NaN when the frame is built;
    a timestamp in a numeric column is a type error. *)
Definition to_float (v : pyval) : result fval :=
  match v with
  | PyNone => Ok NaN
  | PyNum x => Ok x
  | PyTime _ => Raise TypeError
  end.

Definition to_time (v : pyval) : result Z :=
  match v with
  | PyTime t => Ok t
  | _ => Raise TypeError
  end.

(** Lines 924-943, one turn of the loop (with the cell conversions the
    frame constructor performs). *)
Definition fit_row (data : gmap string pyval) : result RawSample :=
  let raw_time := dict_get data "timestamp" (dict_get data "time" PyNone) in
  if negb (py_truthy raw_time) then
    Raise (AssertionError "Unable to get time information in fit record")
  else
    t ← to_time raw_time;
    la ← to_float (dict_get data "position_lat"
                     (dict_get data "lat" (PyNum NaN)));
    lo ← to_float (dict_get data "position_long"
                     (dict_get data "lng" (PyNum NaN)));
    el ← to_float (dict_get data "altitude" (PyNum NaN));
    di ← to_float (dict_get data "distance" (PyNum NaN));
    h ← to_float (dict_get data "heart_rate"
                    (dict_get data "heartrate" (PyNum NaN)));
    ca ← to_float (dict_get data "cadence" (PyNum NaN));
    sp ← to_float (dict_get data "speed" (PyNum NaN));
    po ← to_float (dict_get data "power" (PyNum NaN));
    te ← to_float (dict_get data "temperature" (PyNum NaN));
    Ok {| dtime := t; latt := la; long := lo; elevation := el;
          distance := di; hr := h; cadence := ca; speed := sp;
          power := po; temp := te |}.

Definition fit_rows (records : list (gmap string pyval))
    : result (list RawSample) :=
  mapM fit_row records.

Definition has_power (records : list (gmap string pyval)) : bool :=
  existsb (λ data, negb (py_isnull (dict_get data "power" (PyNum NaN))))
          records.

Definition set_distance (d : fval) (r : RawSample) : RawSample :=
  {| dtime := dtime r; latt := latt r; long := long r;
     elevation := elevation r; distance := d; hr := hr r;
     cadence := cadence r; speed := speed r; power := power r;
     temp := temp r |}.

Definition set_latt_long (la lo : fval) (r : RawSample) : RawSample :=
  {| dtime := dtime r; latt := la; long := lo;
     elevation := elevation r; distance := distance r; hr := hr r;
     cadence := cadence r; speed := speed r; power := power r;
     temp := temp r |}.

Definition set_dtime (t : Z) (r : RawSample) : RawSample :=
  {| dtime := t; latt := latt r; long := long r;
     elevation := elevation r; distance := distance r; hr := hr r;
     cadence := cadence r; speed := speed r; power := power r;
     temp := temp r |}.

(** [180/(2**31)], the semicircle-to-degree factor. *)
Definition semicircle : Q := 180 # 2147483648.

(** Lines 967-969. *)
Definition fix_semicircles (df : list RawSample) : list RawSample :=
  if fgtb (series_max (latt <$> df)) (Fin 90)
     || fltb (series_min (latt <$> df)) (Fin (-90))
  then (λ r, set_latt_long (fmul (latt r) (Fin semicircle))
                           (fmul (long r) (Fin semicircle)) r) <$> df
  else df.

(** Lines 981-991: the unit of the distance column, guessed from its
    maximum. *)
Definition resolve_distance_unit (df : list RawSample) : list RawSample :=
  let max_dist := series_max (distance <$> df) in
  if negb (isnull max_dist) then
    if fltb max_dist (Fin 1000) then df
    else if fltb max_dist (Fin 1000000) then
      (λ r, set_distance (fdiv (distance r) (Fin 1000)) r) <$> df
    else
      (λ r, set_distance (fdiv (distance r) (Fin 100000)) r) <$> df
  else df.

(** Lines 958-999. *)
Definition fit_adjust (records : list (gmap string pyval))
    (df : list RawSample) : list RawSample :=
  match records, df with
  | first_record :: _, first :: _ =>
      if decide (is_Some (first_record !! "timestamp")) then
        let df := if isnull (latt first) then df else fix_semicircles df in
        resolve_distance_unit df
      else df
  | _, _ => df
  end.

(** Seven hours, in nanoseconds. *)
Definition WIB_OFFSET : Z := 7 * 3600 * 1000000000.

(** Lines 1002-1006. *)
Definition guess_sport (records : list (gmap string pyval))
    (df : list RawSample) (sport : string) : string :=
  if decide (sport = "") then
    if has_power records
       || (120 <? length (filter (λ r, fgtb (speed r) (Fin 20)) df))%nat
    then "cycling" else "running"
  else sport.

(** Lines 919-1006: the frame and the metadata handed to the normaliser. *)
Definition fit_frame (records : list (gmap string pyval)) (meta : Meta)
    : result (list RawSample * Meta) :=
  rows ← fit_rows records;
  match rows with
  | [] => Raise (KeyError "dtime")
  | _ :: _ =>
      let df := (λ r, set_dtime (dtime r + WIB_OFFSET) r) <$> rows in
      let m_dtime :=
        match m_dtime meta with
        | Some t => Some t
        | None => dtime <$> head df
        end in
      let df := fit_adjust records df in
      Ok (df,
          {| m_dtime := m_dtime;
             m_sport := guess_sport records df (m_sport meta);
             m_title := m_title meta;
             m_src_file := m_src_file meta;
             m_summary := m_summary meta |})
  end.

Definition parse_fit_records
    (geodesic : fval * fval → fval * fval → fval)
    (records : list (gmap string pyval)) (meta : Meta)
    : result (list CleanedSample * Meta) :=
  '(df, meta) ← fit_frame records meta;
  _process_activity geodesic df meta 3.

(** ** The power curve: [calc_max_powers] *)

(** [list(range(start, stop, step))] for a positive step. *)
Definition range (start stop step : N) : list N :=
  (λ k, start + N.of_nat k * step)%N
    <$> seq 0 (N.to_nat ((stop - start + step - 1) / step)).

(** Lines 639-646. *)
Definition periods : list N :=
  range 1 30 1 ++ range 30 60 5 ++ range 60 120 10 ++ range 120 300 30
  ++ range 300 1200 60 ++ range 1200 7200 300
  ++ range 7200 (12 * 3600 + 600) 600.

(** Lines 653-654, the locals [MIN_POWER] and [MAX_POWER] of
    [calc_max_powers]. *)
Definition MIN_POWER : Q := 20.
Definition CURVE_MAX_POWER : Q := 3000.

(** Lines 648-657: the power column after [dropna] and the bounds filter. *)
Definition curve_powers (df : list CleanedSample) : Series :=
  filter (λ p, fgeb p (Fin MIN_POWER) && fleb p (Fin CURVE_MAX_POWER))
    (dropna (c_power <$> df)).

(** Line 661, for one period. *)
Definition max_power (powers : Series) (p : N) : fval :=
  fround 1 (series_max (rolling_mean (N.to_nat p) (N.to_nat p) powers)).

(** Lines 633-662.  The result is the Python dict, keyed by ['dtime'] and by
    [str(p)]. *)
Definition calc_max_powers (df : list CleanedSample) : gmap string pyval :=
  match df with
  | [] => ∅
  | first :: _ =>
      let dtime := c_dtime first in
      if decide (dropna (c_power <$> df) = []) then ∅
      else
        let powers := curve_powers df in
        if decide (powers = []) then ∅
        else
          foldl (λ result p, <[pretty p := PyNum (max_power powers p)]> result)
                {[ "dtime" := PyTime dtime ]} periods
  end.

(** ** Vocabulary of the properties *)

(** The six columns the normaliser clamps, with the ceilings the
    specification documents for them. *)
Inductive ClampedField : Type :=
  | Elevation | HeartRate | Power | Cadence | Speed | Temperature.

Definition documented_ceiling (f : ClampedField) : Q :=
  match f with
  | Elevation => 9000
  | HeartRate => 250
  | Power => 2500
  | Cadence => 210
  | Speed => 100
  | Temperature => 55
  end.

Definition field_of (f : ClampedField) : RawSample → fval :=
  match f with
  | Elevation => elevation
  | HeartRate => hr
  | Power => power
  | Cadence => cadence
  | Speed => speed
  | Temperature => temp
  end.


(** The [movement] column of the frame just before the stationary rows are
    removed (lines 686-704). *)
Definition movement_column (geodesic : fval * fval → fval * fval → fval)
    (df : list RawSample) : result Series :=
  '(movement, _) ← movement_step geodesic (clamp_sample <$> df);
  Ok (round_clip_movement movement).

(** The three canonical sport categories. *)
Definition canonical_sports : list string := ["cycling"; "running"; "other"].

(** A length in metres that is a whole number of millimetres. *)
Definition millimetre (q : Q) : Prop := ∃ z : Z, (q == z # 1000)%Q.

(** Non-decreasing order on float cells. *)
Definition fle (x y : fval) : Prop := fleb x y = true.



(** ** Sample inputs *)

(** A stand-in for the geodesic library: 111 km per degree along the grid.
    It yields NaN as soon as a coordinate is NaN. *)
Definition fabs (x : fval) : fval :=
  match x with
  | NaN => NaN
  | Fin a => Fin (Qabs a)
  | _ => PInf
  end.

Definition grid_geodesic (p1 p2 : fval * fval) : fval :=
  fmul (Fin 111000)
       (fadd (fabs (fsub (p1.1) (p2.1))) (fabs (fsub (p1.2) (p2.2)))).

(** A stand-in that answers 0 m whatever it is given. *)
Definition blind_geodesic (p1 p2 : fval * fval) : fval := Fin 0.

(** A trainer row: a time in seconds and a distance in km, no position. *)
Definition trainer_row (secs : Z) (d : fval) : RawSample :=
  {| dtime := secs * 1000000000; latt := NaN; long := NaN; elevation := NaN;
     distance := d; hr := NaN; cadence := NaN; speed := NaN;
     power := Fin 200; temp := NaN |}.

(** An outdoor row: a time in seconds and a position, no distance. *)
Definition gps_row (secs : Z) (la lo : Q) : RawSample :=
  {| dtime := secs * 1000000000; latt := Fin la; long := Fin lo;
     elevation := Fin 10; distance := NaN; hr := NaN; cadence := NaN;
     speed := NaN; power := NaN; temp := NaN |}.

Definition meta_of_sport (sport : string) : Meta :=
  {| m_dtime := None; m_sport := sport; m_title := ""; m_src_file := "";
     m_summary := None |}.

(** A row with readings above the ceilings for heart rate and power. *)
Definition faulty_row : RawSample :=
  {| dtime := 0; latt := NaN; long := NaN; elevation := Fin 120;
     distance := Fin 0; hr := Fin 300; cadence := NaN; speed := Fin 30;
     power := PInf; temp := Fin 21 |}.

(** Two rows one second apart with the odometer jumping by 1 km. *)
Definition df_jump : list RawSample :=
  [trainer_row 0 (Fin 0); trainer_row 1 (Fin 1)].

(** Four rows: steady riding, then a row with no distance reading. *)
Definition df_trainer : list RawSample :=
  [trainer_row 0 (Fin (5 # 1000)); trainer_row 1 (Fin (10 # 1000));
   trainer_row 2 (Fin (10 # 1000)); trainer_row 3 NaN;
   trainer_row 4 (Fin (20 # 1000))].

(** Three rows moving north by 0.0001 degree per second. *)
Definition df_gps : list RawSample :=
  [gps_row 0 (-6) 106; gps_row 1 (-59999 # 10000) 106;
   gps_row 2 (-59998 # 10000) 106].

(** A hundred cleaned rows, one per second, all at 200 W. *)
Definition steady_row (k : nat) : CleanedSample :=
  {| c_dtime := Z.of_nat k * 1000000000; c_duration := Fin (Qnat k);
     c_mov_duration := k; c_latt := NaN; c_long := NaN; c_elevation := NaN;
     c_movement := Fin 8; c_distance := Fin (Qnat k * (8 # 1000));
     c_hr := Fin 140; c_cadence := Fin 90; c_speed := Fin (288 # 10);
     c_power := Fin 200; c_temp := NaN |}.

Definition df_steady : list CleanedSample := steady_row <$> seq 0 100.

(** Three cleaned rows: a coasting first row (5 W), then 100 W and 300 W. *)
Definition power_row (t : Z) (w : fval) : CleanedSample :=
  {| c_dtime := t; c_duration := NaN; c_mov_duration := 0; c_latt := NaN;
     c_long := NaN; c_elevation := NaN; c_movement := NaN;
     c_distance := NaN; c_hr := NaN; c_cadence := NaN; c_speed := NaN;
     c_power := w; c_temp := NaN |}.

Definition df_coasting_start : list CleanedSample :=
  [power_row 7 (Fin 5); power_row 8 (Fin 100); power_row 9 (Fin 300)].

(** A Garmin-style record (key [timestamp]) with a distance reading. *)
Definition garmin_record (secs : Z) (d : Q) : gmap string pyval :=
  {[ "timestamp" := PyTime (secs * 1000000000);
     "distance" := PyNum (Fin d);
     "power" := PyNum (Fin 150) ]}.

(** Three Garmin records whose distances are in metres. *)
Definition records_metres : list (gmap string pyval) :=
  [garmin_record 0 0; garmin_record 1 600; garmin_record 2 1200].


(** ** Vocabulary of the further properties *)

Definition set_speed (s : fval) (r : RawSample) : RawSample :=
  {| dtime := dtime r; latt := latt r; long := long r;
     elevation := elevation r; distance := distance r; hr := hr r;
     cadence := cadence r; speed := s; power := power r; temp := temp r |}.

(** The timestamp and the position of a row, before and after. *)
Definition raw_fix (r : RawSample) : Z * fval * fval :=
  (dtime r, latt r, long r).

Definition cleaned_fix (r : CleanedSample) : Z * fval * fval :=
  (c_dtime r, c_latt r, c_long r).

(** A library answer that is a distance: missing, or a finite number of
    metres that is not negative. *)
Definition is_distance (x : fval) : Prop :=
  x = NaN ∨ ∃ q, x = Fin q ∧ (0 <= q)%Q.

(** ** XML documents: [xml_path_val] *)

(** A minidom node: an element with its tag name, attributes and child
    nodes, a text node, or any other node (comment, CDATA section,
    processing instruction).  A document is the element whose only element
    child is the root. *)
#[warnings="-register-all"]
Inductive xml_node : Type :=
  | XText (data : string)
  | XOther
  | XElem (tag : string) (attrs : list (string * string))
          (children : list xml_node).

(** The element descendants of a node in document order, the node itself
    excluded. *)
Fixpoint elements_below (n : xml_node) : list xml_node :=
  match n with
  | XElem _ _ children =>
      (fix go (l : list xml_node) : list xml_node :=
         match l with
         | [] => []
         | c :: l' =>
             match c with
             | XElem _ _ _ => c :: elements_below c
             | _ => []
             end ++ go l'
         end) children
  | _ => []
  end.

Definition tag_matches (name : string) (n : xml_node) : bool :=
  match n with
  | XElem tag _ _ => bool_decide (name = "*") || bool_decide (tag = name)
  | _ => false
  end.

(** [element.getElementsByTagName(name)]. *)
Definition getElementsByTagName (name : string) (n : xml_node)
    : list xml_node :=
  filter (λ e, tag_matches name e) (elements_below n).

(** Lines 33-37: the text nodes among the children, joined. *)
Definition text_of (n : xml_node) : string :=
  match n with
  | XElem _ _ children =>
      foldr String.append ""
        (omap (λ c, match c with XText d => Some d | _ => None end) children)
  | _ => ""
  end.

(** [s.split(sep)] for a one-character separator. *)
Fixpoint split_on (sep : Ascii.ascii) (s : string) : list string :=
  match s with
  | EmptyString => [EmptyString]
  | String c s' =>
      if decide (c = sep) then EmptyString :: split_on sep s'
      else match split_on sep s' with
           | [] => [String c EmptyString]
           | h :: t => String c h :: t
           end
  end.

(** The exceptions of [xml_path_val], each with the tag of its message. *)
Inductive xml_exn : Type :=
  | XKeyError (tag : string)
  | XRecursionError (tag : string).

Inductive outcome (A : Type) : Type :=
  | Return (a : A)
  | Throw (e : xml_exn).
Arguments Return {A} a.
Arguments Throw {A} e.

(** What [xml_path_val] returns: the text it found, or the default. *)
Inductive found (D : Type) : Type :=
  | Text (s : string)
  | Default (d : D).
Arguments Text {D} s.
Arguments Default {D} d.

(** Lines 22-37, the loop over the split path. *)
Fixpoint xml_walk {D} (element : xml_node) (tag_names : list string)
    (default : option D) : outcome (found D) :=
  match tag_names with
  | [] => Return (Text (text_of element))
  | tag_name :: rest =>
      match getElementsByTagName tag_name element with
      | [] =>
          match default with
          | Some d => Return (Default d)
          | None => Throw (XKeyError tag_name)
          end
      | [node] => xml_walk node rest default
      | _ :: _ :: _ => Throw (XRecursionError tag_name)
      end
  end.

(** The separator ['|'] of a tag path. *)
Definition pipe : Ascii.ascii := Ascii.ascii_of_nat 124.

(** Lines 20-37.  [default] is [None] for Python's [None]. *)
Definition xml_path_val {D} (element : xml_node) (tag_names : string)
    (default : option D) : outcome (found D) :=
  xml_walk element (split_on pipe tag_names) default.

(** Whether the character occurs in the string. *)
Fixpoint has_char (c : Ascii.ascii) (s : string) : bool :=
  match s with
  | EmptyString => false
  | String c' s' => bool_decide (c' = c) || has_char c s'
  end.


(** ** Further sample inputs *)

(** A stand-in for the geodesic library on finite coordinates: 111 km per
    degree along each axis; missing as soon as a coordinate is not finite. *)
Definition planar_geodesic (p1 p2 : fval * fval) : fval :=
  match p1, p2 with
  | (Fin a, Fin b), (Fin c, Fin d) =>
      Fin (111000 * (Qabs (a - c) + Qabs (b - d)))
  | _, _ => NaN
  end.

(** A moving trainer row whose every reading is above its ceiling. *)
Definition spike_row (secs : Z) (d : Q) : RawSample :=
  {| dtime := secs * 1000000000; latt := NaN; long := NaN;
     elevation := Fin 9500; distance := Fin d; hr := Fin 300;
     cadence := Fin 250; speed := Fin 30; power := PInf; temp := Fin 60 |}.

Definition df_spikes : list RawSample :=
  [spike_row 0 0; spike_row 1 (5 # 1000); spike_row 2 (10 # 1000)].

(** A Garmin-style record with a position in semicircles. *)
Definition semicircle_record (secs la lo : Z) : gmap string pyval :=
  {[ "timestamp" := PyTime (secs * 1000000000);
     "position_lat" := PyNum (Fin (inject_Z la));
     "position_long" := PyNum (Fin (inject_Z lo)) ]}.

(** Two records near 6 degrees south, 106 degrees east. *)
Definition records_semicircles : list (gmap string pyval) :=
  [semicircle_record 0 (-71582788) 1264629268;
   semicircle_record 1 (-71581595) 1264629268].

(** A record that only carries a distance. *)
Definition untimed_record : gmap string pyval :=
  {[ "distance" := PyNum (Fin 5) ]}.

(** A GPX document with one named, typed track. *)
Definition gpx_doc : xml_node :=
  XElem "#document" []
    [XElem "gpx" [("version", "1.1")]
       [XText " ";
        XElem "trk" []
          [XElem "name" [] [XText "Morning "; XOther; XText "Ride"];
           XElem "type" [] [XText "9"];
           XElem "trkseg" [] []]]].
(** * Properties *)

(** ** Comparisons on rationals and floats *)

Lemma Qlt_bool_true (a b : Q) : Qlt_bool a b = true ↔ (a < b)%Q.
Proof.
  unfold Qlt_bool. rewrite negb_true_iff.
  split.
  - intros H. apply Qnot_le_lt. intros Hle.
    apply Qle_bool_iff in Hle. congruence.
  - intros H. destruct (Qle_bool b a) eqn:E; [|done].
    apply Qle_bool_iff in E. exfalso. eapply Qlt_not_le; eauto.
Qed.

Lemma Qlt_bool_false (a b : Q) : Qlt_bool a b = false ↔ (b <= a)%Q.
Proof.
  unfold Qlt_bool. rewrite negb_false_iff. apply Qle_bool_iff.
Qed.

Lemma Qlt_bool_irrefl (a : Q) : Qlt_bool a a = false.
Proof. apply Qlt_bool_false, Qle_refl. Qed.

Lemma fgeb_Fin_r (x : fval) (t : Q) :
  fgeb x (Fin t) = true ↔ x = PInf ∨ ∃ q, x = Fin q ∧ (t <= q)%Q.
Proof.
  unfold fgeb. destruct x as [| |q|]; simpl.
  - split; [done|]. intros [?|(?&?&?)]; done.
  - split; [done|]. intros [?|(?&?&?)]; done.
  - rewrite Qle_bool_iff. split.
    + intros H. right. by exists q.
    + intros [?|(q'&[= ->]&?)]; done.
  - split; [by left|done].
Qed.

(** ** Clamping *)

Lemma clip_upper_spec (u : Q) (x : fval) :
  fgtb (clip_upper u x) (Fin u) = false
  ∧ fgtb (clip_upper u x) x = false
  ∧ (fgtb x (Fin u) = true → clip_upper u x = Fin u)
  ∧ (fgtb x (Fin u) = false → clip_upper u x = x).
Proof.
  unfold fgtb. destruct x as [| |a|]; simpl.
  - done.
  - done.
  - destruct (Qlt_bool u a) eqn:E; simpl.
    + rewrite Qlt_bool_irrefl. repeat split; try done.
      apply Qlt_bool_false, Qlt_le_weak. by apply Qlt_bool_true.
    + rewrite E, Qlt_bool_irrefl. done.
  - rewrite Qlt_bool_irrefl. done.
Qed.

Lemma clip_upper_not_PInf (u : Q) (x : fval) : clip_upper u x ≠ PInf.
Proof. destruct x as [| |a|]; simpl; try done. by destruct (Qlt_bool u a). Qed.

Lemma clip_upper_Fin (u : Q) (x : fval) (q : Q) :
  clip_upper u x = Fin q →
  (q <= u)%Q ∧ (x = Fin q ∨ q = u).
Proof.
  destruct x as [| |a|]; simpl; try done.
  - destruct (Qlt_bool u a) eqn:E; intros [= <-].
    + split; [apply Qle_refl|by right].
    + split; [by apply Qlt_bool_false|by left].
  - intros [= <-]. split; [apply Qle_refl|by right].
Qed.

Lemma clamp_sample_field (f : ClampedField) (r : RawSample) :
  field_of f (clamp_sample r)
  = clip_upper (documented_ceiling f) (field_of f r).
Proof. by destruct f. Qed.

(** C3: after the clamping step every clamped field is at most its
    documented ceiling and at most its input; an input above the ceiling
    becomes the ceiling itself, any other input (a missing one included) is
    passed through unchanged, so nothing is discarded. *)
Theorem clamp_never_exceeds (r : RawSample) (f : ClampedField) :
  let v := field_of f r in
  let v' := field_of f (clamp_sample r) in
  fgtb v' (Fin (documented_ceiling f)) = false
  ∧ fgtb v' v = false
  ∧ (fgtb v (Fin (documented_ceiling f)) = true
     → v' = Fin (documented_ceiling f))
  ∧ (fgtb v (Fin (documented_ceiling f)) = false → v' = v).
Proof.
  cbv zeta. rewrite clamp_sample_field. apply clip_upper_spec.
Qed.

(** The clamping step leaves the other four columns alone. *)
Lemma clamp_sample_unclamped (r : RawSample) :
  dtime (clamp_sample r) = dtime r
  ∧ latt (clamp_sample r) = latt r
  ∧ long (clamp_sample r) = long r
  ∧ distance (clamp_sample r) = distance r.
Proof. done. Qed.

(** ** Lengths of derived columns *)

Lemma length_shift (xs : Series) : length (shift xs) = length xs.
Proof. unfold shift. rewrite length_take. simpl. lia. Qed.

Lemma length_diff (xs : Series) : length (diff xs) = length xs.
Proof. unfold diff. rewrite length_zip_with, length_shift. lia. Qed.

Lemma length_fillna (v : fval) (xs : Series) :
  length (fillna v xs) = length xs.
Proof. apply length_fmap. Qed.

Lemma length_cumsum_from (acc : fval) (xs : Series) :
  length (cumsum_from acc xs) = length xs.
Proof.
  revert acc. induction xs as [|x xs IH]; intros acc; simpl; [done|].
  destruct (isnull x); simpl; by rewrite IH.
Qed.

Lemma length_rolling_mean (w m : nat) (xs : Series) :
  length (rolling_mean w m xs) = length xs.
Proof. apply length_imap. Qed.

Lemma length_round_clip_movement (xs : Series) :
  length (round_clip_movement xs) = length xs.
Proof. unfold round_clip_movement. by rewrite !length_fmap. Qed.

Lemma length_duration_column (dtimes : list Z) :
  length (duration_column dtimes) = length dtimes.
Proof. destruct dtimes; [done|]. unfold duration_column. by rewrite length_fmap. Qed.

Lemma length_gps_movement geodesic (latts longs : Series) :
  length latts = length longs →
  length (gps_movement geodesic latts longs) = length latts.
Proof.
  intros H. unfold gps_movement.
  rewrite length_fillna, length_zip_with, !length_zip, !length_shift. lia.
Qed.

Lemma length_gps_distance (movement : Series) :
  length (gps_distance movement) = length movement.
Proof.
  unfold gps_distance, cumsum. by rewrite length_fmap, length_cumsum_from.
Qed.


(** ** The movement step *)

Lemma fmap_clamp_dtime (df : list RawSample) :
  dtime <$> (clamp_sample <$> df) = dtime <$> df.
Proof. rewrite <- list_fmap_compose. by apply list_fmap_ext. Qed.

Lemma fmap_clamp_latt (df : list RawSample) :
  latt <$> (clamp_sample <$> df) = latt <$> df.
Proof. rewrite <- list_fmap_compose. by apply list_fmap_ext. Qed.

Lemma fmap_clamp_long (df : list RawSample) :
  long <$> (clamp_sample <$> df) = long <$> df.
Proof. rewrite <- list_fmap_compose. by apply list_fmap_ext. Qed.

Lemma fmap_clamp_distance (df : list RawSample) :
  distance <$> (clamp_sample <$> df) = distance <$> df.
Proof. rewrite <- list_fmap_compose. by apply list_fmap_ext. Qed.

Section MovementStep.
Variable geodesic : fval * fval → fval * fval → fval.

Lemma movement_step_nil : movement_step geodesic [] = Raise IndexError.
Proof. done. Qed.

Lemma movement_step_no_gps (first : RawSample) (rest : list RawSample) :
  isnull (distance first) = true →
  isnull (latt first) = true →
  movement_step geodesic (first :: rest)
  = Raise (AssertionError
      "Unable to calculate distance because GPS coordinates are null").
Proof. intros Hd Hl. unfold movement_step. by rewrite Hd, Hl. Qed.

Lemma movement_step_gps (first : RawSample) (rest : list RawSample) :
  isnull (distance first) = true →
  isnull (latt first) = false →
  let df := first :: rest in
  let movement := gps_movement geodesic (latt <$> df) (long <$> df) in
  let distances := gps_distance movement in
  movement_step geodesic df
  = Ok (<[0%nat := fmul (distances !!! 0%nat) (Fin 1000)]> movement,
        distances).
Proof. intros Hd Hl. cbv zeta. unfold movement_step. by rewrite Hd, Hl. Qed.

Lemma movement_step_distance (first : RawSample) (rest : list RawSample) :
  isnull (distance first) = false →
  let df := first :: rest in
  let distances := distance <$> df in
  movement_step geodesic df
  = Ok (<[0%nat := fmul (distances !!! 0%nat) (Fin 1000)]>
          (diff ((λ d, fmul d (Fin 1000)) <$> distances)),
        distances).
Proof. intros Hd. cbv zeta. unfold movement_step. by rewrite Hd. Qed.

Lemma movement_step_length (df : list RawSample) (movement distances : Series) :
  movement_step geodesic df = Ok (movement, distances) →
  length movement = length df ∧ length distances = length df.
Proof.
  destruct df as [|first rest]; [done|].
  destruct (isnull (distance first)) eqn:Hd.
  - destruct (isnull (latt first)) eqn:Hl.
    + by rewrite movement_step_no_gps.
    + rewrite movement_step_gps by done. cbv zeta.
      set (mv := gps_movement _ _ _).
      assert (length mv = length (first :: rest)) as Hmv.
      { unfold mv. rewrite length_gps_movement by (by rewrite !length_fmap).
        by rewrite length_fmap. }
      clearbody mv. intros [= <- <-].
      by rewrite length_insert, length_gps_distance.
  - rewrite movement_step_distance by done. cbv zeta.
    set (ds := distance <$> _).
    assert (length ds = length (first :: rest)) as Hds
      by (unfold ds; by rewrite length_fmap).
    clearbody ds. intros [= <- <-].
    by rewrite length_insert, length_diff, length_fmap.
Qed.

(** The step fails only on an empty frame or on a first row with neither a
    distance nor a latitude. *)
Lemma movement_step_ok (first : RawSample) (rest : list RawSample) :
  isnull (distance first) && isnull (latt first) = false →
  ∃ movement distances,
    movement_step geodesic (first :: rest) = Ok (movement, distances).
Proof.
  intros H. destruct (isnull (distance first)) eqn:Hd.
  - simpl in H. rewrite movement_step_gps by done. eauto.
  - rewrite movement_step_distance by done. eauto.
Qed.

(** ** What the normaliser returns, column by column *)

Lemma fmap_imap_ignore {A B C} (f : nat → A → B) (g : B → C) (h : A → C)
    (l : list A) :
  (∀ k x, g (f k x) = h x) → g <$> imap f l = h <$> l.
Proof.
  intros H. rewrite fmap_imap, <- imap_const.
  apply imap_ext. intros k x _. simpl. apply H.
Qed.

Lemma fmap_imap_index {A B} (f : nat → A → B) (g : B → nat) (l : list A) :
  (∀ k x, g (f k x) = k) → g <$> imap f l = seq 0 (length l).
Proof.
  intros H. rewrite fmap_imap.
  trans (id <$> seq 0 (length l)); [|apply list_fmap_id].
  rewrite <- imap_seq_0. apply imap_ext. intros k x _. simpl. apply H.
Qed.

Lemma process_activity_columns (df : list RawSample) (meta : Meta)
    (min_kph : Q) (out : list CleanedSample) (meta' : Meta) :
  _process_activity geodesic df meta min_kph = Ok (out, meta') →
  ∃ movement distances,
    movement_step geodesic (clamp_sample <$> df) = Ok (movement, distances)
    ∧ sports !! m_sport meta = Some (m_sport meta')
    ∧ let kept := kept_rows min_kph (round_clip_movement movement) in
      c_dtime <$> out = select kept (dtime <$> df)
      ∧ c_duration <$> out = select kept (duration_column (dtime <$> df))
      ∧ c_mov_duration <$> out = seq 0 (length kept)
      ∧ c_movement <$> out = select kept (round_clip_movement movement)
      ∧ c_distance <$> out = fround 3 <$> select kept distances.
Proof.
  unfold _process_activity.
  destruct (movement_step geodesic (clamp_sample <$> df))
    as [[movement distances]|e]; simpl; [|done].
  destruct (sports !! m_sport meta) as [sport|] eqn:Hs; [|done].
  intros [= <- <-]. exists movement, distances.
  split; [done|]. split; [done|]. cbv zeta.
  rewrite fmap_clamp_dtime. unfold select.
  repeat split.
  - by apply fmap_imap_ignore.
  - by apply fmap_imap_ignore.
  - by apply fmap_imap_index.
  - by apply fmap_imap_ignore.
  - rewrite <- (list_fmap_compose (λ i : nat, distances !!! i) (fround 3)).
    by apply fmap_imap_ignore.
Qed.

Lemma process_activity_raises_movement (df : list RawSample) (meta : Meta)
    (min_kph : Q) (e : exn) :
  movement_step geodesic (clamp_sample <$> df) = Raise e →
  _process_activity geodesic df meta min_kph = Raise e.
Proof. intros H. unfold _process_activity. by rewrite H. Qed.

Lemma process_activity_raises_sport (df : list RawSample) (meta : Meta)
    (min_kph : Q) (movement distances : Series) :
  movement_step geodesic (clamp_sample <$> df) = Ok (movement, distances) →
  sports !! m_sport meta = None →
  _process_activity geodesic df meta min_kph
  = Raise (KeyError (m_sport meta)).
Proof. intros H Hs. unfold _process_activity. rewrite H. simpl. by rewrite Hs. Qed.


End MovementStep.

(** ** The rows the filter keeps *)

Lemma StronglySorted_seq (a n : nat) : StronglySorted lt (seq a n).
Proof.
  revert a. induction n as [|n IH]; intros a; simpl; constructor; [done|].
  apply Forall_forall. intros i Hi. apply elem_of_seq in Hi. lia.
Qed.

Lemma StronglySorted_filter {A} (R : relation A) (P : A → Prop)
    `{∀ x, Decision (P x)} (l : list A) :
  StronglySorted R l → StronglySorted R (filter P l).
Proof.
  induction 1 as [|x l Hl IH Hx]; [constructor|].
  rewrite filter_cons. case_decide; [|done].
  constructor; [done|].
  apply Forall_forall. intros y Hy. apply list_elem_of_filter in Hy as [_ Hy].
  by eapply Forall_forall in Hx.
Qed.

Lemma kept_rows_sorted (min_kph : Q) (movement : Series) :
  StronglySorted lt (kept_rows min_kph movement).
Proof. apply StronglySorted_filter, StronglySorted_seq. Qed.

Lemma elem_of_kept_rows (min_kph : Q) (movement : Series) (i : nat) :
  i ∈ kept_rows min_kph movement
  ↔ (i < length movement)%nat
    ∧ fgeb (movement !!! i) (Fin (min_movement min_kph)) = true.
Proof.
  unfold kept_rows. rewrite list_elem_of_filter, elem_of_seq, Is_true_true.
  split; intros [? ?]; split; (done || lia).
Qed.

Lemma round_clip_movement_lookup (movement : Series) (i : nat) :
  round_clip_movement movement !! i
  = (λ x, clip_upper max_movement (fround 3 x)) <$> movement !! i.
Proof.
  unfold round_clip_movement. rewrite !list_lookup_fmap.
  by destruct (movement !! i).
Qed.

(** In the clipped column a row is kept exactly when its movement is a
    finite number at or above the threshold. *)
Lemma kept_rows_finite (min_kph : Q) (movement : Series) (i : nat) :
  i ∈ kept_rows min_kph (round_clip_movement movement)
  ↔ ∃ q, round_clip_movement movement !! i = Some (Fin q)
         ∧ (min_movement min_kph <= q)%Q.
Proof.
  rewrite elem_of_kept_rows. split.
  - intros [Hi Hge].
    destruct (lookup_lt_is_Some_2 _ _ Hi) as [v Hv].
    rewrite (list_lookup_total_correct _ _ _ Hv) in Hge.
    apply fgeb_Fin_r in Hge as [->|(q & -> & Hq)].
    + rewrite round_clip_movement_lookup in Hv.
      destruct (movement !! i) as [x|]; [|done].
      injection Hv as Hv. by apply clip_upper_not_PInf in Hv.
    + by exists q.
  - intros (q & Hv & Hq). split.
    + by eapply lookup_lt_Some.
    + rewrite (list_lookup_total_correct _ _ _ Hv).
      apply fgeb_Fin_r. right. by exists q.
Qed.

Lemma elem_of_select {A} `{Inhabited A} (kept : list nat) (col : list A)
    (v : A) :
  v ∈ select kept col ↔ ∃ i, i ∈ kept ∧ v = col !!! i.
Proof.
  unfold select. rewrite list_elem_of_fmap. split.
  - intros (i & -> & Hi). by exists i.
  - intros (i & Hi & ->). by exists i.
Qed.

Lemma select_sorted {A} `{Inhabited A} (R : relation A) (col : list A)
    (kept : list nat) :
  StronglySorted lt kept →
  Forall (λ i, (i < length col)%nat) kept →
  (∀ i j a b, (i < j)%nat → col !! i = Some a → col !! j = Some b → R a b) →
  StronglySorted R (select kept col).
Proof.
  intros Hs Hb HR. induction Hs as [|i kept Hs IH Hi]; [constructor|].
  apply Forall_cons in Hb as [Hib Hb].
  unfold select. rewrite fmap_cons. constructor; [by apply IH|].
  apply Forall_fmap, Forall_forall. intros j Hj. simpl.
  destruct (lookup_lt_is_Some_2 col i Hib) as [a Ha].
  assert (j < length col)%nat as Hjb by (by eapply Forall_forall in Hb).
  destruct (lookup_lt_is_Some_2 col j Hjb) as [b Hb'].
  rewrite (list_lookup_total_correct _ _ _ Ha).
  rewrite (list_lookup_total_correct _ _ _ Hb').
  eapply HR; [|done..]. by eapply Forall_forall in Hi.
Qed.

(** ** Durations *)

Lemma StronglySorted_lookup_le (l : list Z) (i j : nat) (a b : Z) :
  StronglySorted Z.le l → (i <= j)%nat →
  l !! i = Some a → l !! j = Some b → (a <= b)%Z.
Proof.
  intros Hs. revert i j. induction Hs as [|x l Hs IH Hx]; intros i j Hij Hi Hj.
  - done.
  - destruct i as [|i], j as [|j]; simpl in *; simplify_eq; try lia.
    + eapply Forall_forall in Hx; [done|]. by eapply list_elem_of_lookup_2.
    + eapply IH; [|done..]. lia.
Qed.

Lemma duration_column_lookup (dtimes : list Z) (start t : Z) (i : nat) :
  head dtimes = Some start → dtimes !! i = Some t →
  duration_column dtimes !! i = Some (Fin ((t - start) # 1000000000)).
Proof.
  destruct dtimes as [|s rest]; [done|]. intros [= ->] Hi.
  unfold duration_column. by rewrite list_lookup_fmap, Hi.
Qed.

Lemma duration_column_sorted (dtimes : list Z) (i j : nat) (a b : fval) :
  Sorted Z.le dtimes → (i < j)%nat →
  duration_column dtimes !! i = Some a →
  duration_column dtimes !! j = Some b → fle a b.
Proof.
  intros Hs Hij Ha Hb.
  apply (Sorted_StronglySorted _) in Hs.
  destruct dtimes as [|start rest]; [done|].
  assert (is_Some ((start :: rest) !! i)) as [ti Hti].
  { apply lookup_lt_is_Some. apply lookup_lt_Some in Ha.
    by rewrite length_duration_column in Ha. }
  assert (is_Some ((start :: rest) !! j)) as [tj Htj].
  { apply lookup_lt_is_Some. apply lookup_lt_Some in Hb.
    by rewrite length_duration_column in Hb. }
  rewrite (duration_column_lookup _ start ti) in Ha by done.
  rewrite (duration_column_lookup _ start tj) in Hb by done.
  simplify_eq. unfold fle. simpl. apply Qle_bool_iff.
  assert (ti <= tj)%Z by (eapply StronglySorted_lookup_le; [done| |done..]; lia).
  unfold Qle. simpl. lia.
Qed.

(** ** Millimetre precision *)

Lemma Qround_dec_millimetre (a : Q) : millimetre (Qround_dec 3 a).
Proof.
  exists (rint (a * inject_Z (Z.pos (pow10 3)))).
  unfold Qround_dec. rewrite Qred_correct. reflexivity.
Qed.

Lemma max_movement_not_millimetre : ¬ millimetre max_movement.
Proof. intros [z Hz]. unfold Qeq in Hz. simpl in Hz. lia. Qed.

(** ** The normaliser *)

Section NormalizerFacts.
Variable geodesic : fval * fval → fval * fval → fval.

Lemma movement_column_eq (df : list RawSample) (movement distances : Series) :
  movement_step geodesic (clamp_sample <$> df) = Ok (movement, distances) →
  movement_column geodesic df = Ok (round_clip_movement movement).
Proof. intros H. unfold movement_column. by rewrite H. Qed.

(** C9: the rows that survive the stationary-sample removal are exactly
    the rows whose movement is a finite number at or above the threshold
    [min_kph * 1000 / 3600]; a row whose movement is missing is dropped
    like a row below the threshold.  The cleaned frame holds the kept rows
    in their original order. *)
Theorem stationary_rows_removed (df : list RawSample) (meta : Meta)
    (min_kph : Q) (out : list CleanedSample) (meta' : Meta) :
  _process_activity geodesic df meta min_kph = Ok (out, meta') →
  ∃ movement kept,
    movement_column geodesic df = Ok movement
    ∧ length movement = length df
    ∧ StronglySorted lt kept
    ∧ (∀ i, i ∈ kept
            ↔ ∃ q, movement !! i = Some (Fin q)
                   ∧ (min_movement min_kph <= q)%Q)
    ∧ c_dtime <$> out = select kept (dtime <$> df)
    ∧ c_movement <$> out = select kept movement.
Proof.
  intros H.
  apply process_activity_columns
    in H as (mv & ds & Hstep & _ & Hdt & _ & _ & Hmv & _).
  exists (round_clip_movement mv), (kept_rows min_kph (round_clip_movement mv)).
  split; [by eapply movement_column_eq|].
  split.
  { rewrite length_round_clip_movement.
    apply movement_step_length in Hstep as [-> _]. by rewrite length_fmap. }
  split; [apply kept_rows_sorted|].
  split; [apply kept_rows_finite|]. done.
Qed.

(** C2: when the timestamps of the input are non-decreasing and the
    normaliser returns, the [duration] column of the cleaned frame is
    non-decreasing and [mov_duration] is the 0-based row index. *)
Theorem cleaned_durations (df : list RawSample) (meta : Meta)
    (min_kph : Q) (out : list CleanedSample) (meta' : Meta) :
  Sorted Z.le (dtime <$> df) →
  _process_activity geodesic df meta min_kph = Ok (out, meta') →
  Sorted fle (c_duration <$> out)
  ∧ c_mov_duration <$> out = seq 0 (length out)
  ∧ ∀ k r, out !! k = Some r → c_mov_duration r = k.
Proof.
  intros Hsorted H.
  apply process_activity_columns
    in H as (mv & ds & Hstep & _ & _ & Hdur & Hmov & _ & _).
  assert (c_mov_duration <$> out = seq 0 (length out)) as Hidx.
  { rewrite Hmov. f_equal.
    rewrite <- (length_fmap c_mov_duration out), Hmov. by rewrite length_seq. }
  split; [|split; [done|]].
  - rewrite Hdur. apply StronglySorted_Sorted, select_sorted.
    + apply kept_rows_sorted.
    + apply Forall_forall. intros i Hi.
      apply elem_of_kept_rows in Hi as [Hi _].
      rewrite length_round_clip_movement in Hi.
      apply movement_step_length in Hstep as [Hlen _].
      rewrite length_duration_column, length_fmap.
      by rewrite Hlen, length_fmap in Hi.
    + intros i j a b. by apply duration_column_sorted.
  - intros k r Hk.
    assert ((c_mov_duration <$> out) !! k = Some (c_mov_duration r)) as Hr
      by (by rewrite list_lookup_fmap, Hk).
    rewrite Hidx in Hr. apply lookup_seq in Hr. lia.
Qed.

(** C6, as the code has it: every movement value of the cleaned frame is
    a finite number no greater than the cap [100 * 1000 / 3600] m; it is a
    whole number of millimetres unless it was capped, in which case it
    is the cap itself. *)
Theorem movement_capped_or_rounded (df : list RawSample) (meta : Meta)
    (min_kph : Q) (out : list CleanedSample) (meta' : Meta) :
  _process_activity geodesic df meta min_kph = Ok (out, meta') →
  ∀ v, v ∈ c_movement <$> out →
    ∃ q, v = Fin q
         ∧ (q <= max_movement)%Q
         ∧ (millimetre q ∨ q = max_movement).
Proof.
  intros H v Hv.
  apply process_activity_columns
    in H as (mv & ds & _ & _ & _ & _ & _ & Hmv & _).
  rewrite Hmv in Hv. apply elem_of_select in Hv as (i & Hi & ->).
  apply kept_rows_finite in Hi as (q & Hq & _).
  rewrite (list_lookup_total_correct _ _ _ Hq). exists q. split; [done|].
  rewrite round_clip_movement_lookup in Hq.
  destruct (mv !! i) as [x|]; [|done]. injection Hq as Hq.
  apply clip_upper_Fin in Hq as [Hle [Hx| ->]].
  - split; [done|]. left. destruct x as [| |a|]; try done.
    injection Hx as <-. apply Qround_dec_millimetre.
  - split; [apply Qle_refl|by right].
Qed.

End NormalizerFacts.

(** C6, counterexample: when the odometer jumps by 1 km within one second
    the cleaned frame holds the movement [100000/3600] m, which is the cap
    and not a whole number of millimetres. *)
Lemma capped_movement_not_millimetre :
  ∃ out meta',
    _process_activity blind_geodesic df_jump (meta_of_sport "ride") 3
    = Ok (out, meta')
    ∧ ∃ q, Fin q ∈ c_movement <$> out ∧ ¬ millimetre q.
Proof.
  eexists _, _. split; [vm_compute; reflexivity|].
  exists max_movement. split.
  - vm_compute. apply list_elem_of_here.
  - apply max_movement_not_millimetre.
Qed.

(** ** Shifted columns and running sums *)

Lemma shift_lookup_0 (xs : Series) (x : fval) :
  xs !! 0%nat = Some x → shift xs !! 0%nat = Some NaN.
Proof.
  intros H. unfold shift. apply lookup_lt_Some in H.
  by rewrite lookup_take_lt by done.
Qed.

Lemma shift_lookup_S (xs : Series) (i : nat) (x : fval) :
  xs !! S i = Some x → shift xs !! S i = xs !! i.
Proof.
  intros H. unfold shift. apply lookup_lt_Some in H.
  by rewrite lookup_take_lt by done.
Qed.


Lemma cumsum_from_lookup (acc : fval) (xs : Series) (i : nat) :
  Forall (λ x, isnull x = false) xs → (i < length xs)%nat →
  cumsum_from acc xs !! i = Some (foldl fadd acc (take (S i) xs)).
Proof.
  intros Hxs. revert acc i.
  induction Hxs as [|x xs Hx Hxs IH]; intros acc i Hi; simpl in *; [lia|].
  rewrite Hx. destruct i as [|i]; simpl.
  - done.
  - apply IH. lia.
Qed.

Section GpsMovement.
Variable geodesic : fval * fval → fval * fval → fval.

Lemma zip_lookup {A B} (l : list A) (k : list B) (i : nat) (x : A) (y : B) :
  l !! i = Some x → k !! i = Some y → zip l k !! i = Some (x, y).
Proof. intros Hx Hy. apply lookup_zip_with_Some. by exists x, y. Qed.

Lemma gps_movement_first (df : list RawSample) (r : RawSample) :
  df !! 0%nat = Some r →
  gps_movement geodesic (latt <$> df) (long <$> df) !! 0%nat = Some (Fin 0).
Proof.
  intros Hr. unfold gps_movement, fillna.
  rewrite list_lookup_fmap.
  match goal with |- _ <$> ?l !! _ = _ =>
    assert (l !! 0%nat = Some NaN) as ->; [|done] end.
  apply lookup_zip_with_Some.
  exists (NaN, NaN), (latt r, long r). split; [done|].
  split; apply zip_lookup.
  - apply (shift_lookup_0 _ (latt r)). by rewrite list_lookup_fmap, Hr.
  - apply (shift_lookup_0 _ (long r)). by rewrite list_lookup_fmap, Hr.
  - by rewrite list_lookup_fmap, Hr.
  - by rewrite list_lookup_fmap, Hr.
Qed.


Lemma round_clip_movement_gps_head (movement : Series) :
  movement !! 0%nat = Some (Fin 0) →
  round_clip_movement
    (<[0%nat := fmul (gps_distance movement !!! 0%nat) (Fin 1000)]> movement)
  = round_clip_movement movement.
Proof.
  destruct movement as [|x tail]; [done|]. intros [= ->].
  unfold round_clip_movement, gps_distance, cumsum. simpl.
  f_equal.
Qed.


End GpsMovement.

(** ** Sport canonicalisation *)

Lemma sports_canonical (label c : string) :
  sports !! label = Some c → c ∈ canonical_sports.
Proof.
  intros H. apply elem_of_list_to_map_2 in H. unfold canonical_sports.
  repeat (apply elem_of_cons in H as [[= _ ->]|H];
          [repeat constructor|]).
  by apply elem_of_nil in H.
Qed.

(** C5: the lookup table sends every label it knows to "cycling", "running"
    or "other" ("virtualride", "biking" and "ride" to "cycling"); the
    normaliser stores that category in the metadata it returns, and raises
    for every label the table does not know, such as "unicycling": a
    [KeyError] naming the label whenever the movement step itself succeeds. *)
Theorem sport_canonicalization :
  (∀ label c, sports !! label = Some c → c ∈ canonical_sports)
  ∧ sports !! "virtualride" = Some "cycling"
  ∧ sports !! "biking" = Some "cycling"
  ∧ sports !! "ride" = Some "cycling"
  ∧ sports !! "unicycling" = None
  ∧ (∀ geodesic df meta min_kph out meta',
       _process_activity geodesic df meta min_kph = Ok (out, meta') →
       sports !! m_sport meta = Some (m_sport meta')
       ∧ m_sport meta' ∈ canonical_sports)
  ∧ (∀ geodesic df meta min_kph,
       sports !! m_sport meta = None →
       (∃ e, _process_activity geodesic df meta min_kph = Raise e)
       ∧ (∀ first rest,
            df = first :: rest →
            isnull (distance first) && isnull (latt first) = false →
            _process_activity geodesic df meta min_kph
            = Raise (KeyError (m_sport meta))))
  ∧ _process_activity grid_geodesic df_gps (meta_of_sport "unicycling") 3
    = Raise (KeyError "unicycling")
  ∧ (∃ out meta',
       _process_activity grid_geodesic df_gps (meta_of_sport "virtualride") 3
       = Ok (out, meta') ∧ m_sport meta' = "cycling").
Proof.
  split; [apply sports_canonical|].
  do 4 (split; [by vm_compute|]).
  split.
  { intros geodesic df meta min_kph out meta' H.
    apply process_activity_columns in H as (mv & ds & _ & Hs & _).
    split; [done|]. by eapply sports_canonical. }
  split.
  { intros geodesic df meta min_kph Hs. split.
    - destruct (movement_step geodesic (clamp_sample <$> df))
        as [[mv ds]|e] eqn:Hstep.
      + eexists. by eapply process_activity_raises_sport.
      + exists e. by apply process_activity_raises_movement.
    - intros first rest -> Hfirst.
      destruct (movement_step_ok geodesic (clamp_sample first)
                  (clamp_sample <$> rest) Hfirst) as (mv & ds & Hstep).
      by eapply process_activity_raises_sport. }
  split; [by vm_compute|].
  eexists _, _. split; [vm_compute; reflexivity|done].
Qed.

(** ** Geodistance *)



(** ** The FIT parser *)

Lemma fltb_false_fgeb (x : fval) (t : Q) :
  isnull x = false → (fltb x (Fin t) = false ↔ fgeb x (Fin t) = true).
Proof.
  unfold fgeb. destruct x as [| |a|]; simpl; try done.
  intros _. unfold Qlt_bool. rewrite negb_false_iff. done.
Qed.

Lemma mapM_result_Ok {A B} (f : A → result B) (l : list A) (k : list B) :
  mapM f l = Ok k → Forall2 (λ x y, f x = Ok y) l k.
Proof.
  revert k. induction l as [|x l IH]; intros k; simpl.
  - intros [= <-]. constructor.
  - destruct (f x) as [y|e] eqn:Hy; simpl; [|done].
    destruct (mapM f l) as [k'|e] eqn:Hk; simpl; [|done].
    intros [= <-]. constructor; [done|]. by apply IH.
Qed.

Lemma fit_row_distance (data : gmap string pyval) (r : RawSample) :
  fit_row data = Ok r →
  to_float (dict_get data "distance" (PyNum NaN)) = Ok (distance r).
Proof.
  unfold fit_row. destruct (negb (py_truthy _)); [done|].
  repeat match goal with
         | |- context [mbind _ ?c] =>
             let E := fresh "E" in destruct c eqn:E; simpl; [|done]
         end.
  by intros [= <-].
Qed.

Lemma fmap_distance_set_dtime (f : RawSample → Z) (df : list RawSample) :
  distance <$> ((λ r, set_dtime (f r) r) <$> df) = distance <$> df.
Proof. rewrite <- list_fmap_compose. by apply list_fmap_ext. Qed.

Lemma fmap_distance_set_distance (f : fval → fval) (df : list RawSample) :
  distance <$> ((λ r, set_distance (f (distance r)) r) <$> df)
  = f <$> (distance <$> df).
Proof. rewrite <- !list_fmap_compose. by apply list_fmap_ext. Qed.

Lemma fmap_distance_fix_semicircles (df : list RawSample) :
  distance <$> fix_semicircles df = distance <$> df.
Proof.
  unfold fix_semicircles. destruct (_ || _); [|done].
  rewrite <- list_fmap_compose. by apply list_fmap_ext.
Qed.

(** The unit resolution, read off the distance column. *)
Lemma resolve_distance_unit_column (df : list RawSample) :
  let col := distance <$> df in
  let max_dist := series_max col in
  distance <$> resolve_distance_unit df
  = if isnull max_dist then col
    else if fltb max_dist (Fin 1000) then col
    else if fltb max_dist (Fin 1000000)
         then (λ d, fdiv d (Fin 1000)) <$> col
         else (λ d, fdiv d (Fin 100000)) <$> col.
Proof.
  cbv zeta. unfold resolve_distance_unit.
  destruct (isnull (series_max (distance <$> df))); simpl; [done|].
  destruct (fltb _ (Fin 1000)); [done|].
  destruct (fltb _ (Fin 1000000)).
  - apply (fmap_distance_set_distance (λ d, fdiv d (Fin 1000))).
  - apply (fmap_distance_set_distance (λ d, fdiv d (Fin 100000))).
Qed.

Lemma fit_adjust_distance (first_record : gmap string pyval)
    (rest : list (gmap string pyval)) (df : list RawSample) :
  is_Some (first_record !! "timestamp") →
  let col := distance <$> df in
  let max_dist := series_max col in
  distance <$> fit_adjust (first_record :: rest) df
  = if isnull max_dist then col
    else if fltb max_dist (Fin 1000) then col
    else if fltb max_dist (Fin 1000000)
         then (λ d, fdiv d (Fin 1000)) <$> col
         else (λ d, fdiv d (Fin 100000)) <$> col.
Proof.
  intros Hts. cbv zeta. destruct df as [|first df']; [done|].
  unfold fit_adjust. rewrite decide_True by done.
  destruct (isnull (latt first)).
  - apply resolve_distance_unit_column.
  - rewrite resolve_distance_unit_column. cbv zeta.
    by rewrite fmap_distance_fix_semicircles.
Qed.

Lemma fit_frame_ok (records : list (gmap string pyval)) (meta : Meta)
    (first : RawSample) (rows' : list RawSample) :
  fit_rows records = Ok (first :: rows') →
  ∃ meta',
    fit_frame records meta
    = Ok (fit_adjust records
            ((λ r, set_dtime (dtime r + WIB_OFFSET) r) <$> first :: rows'),
          meta').
Proof. intros H. unfold fit_frame. rewrite H. simpl. eauto. Qed.

(** C1: for a record list whose first record carries the key [timestamp],
    with at least one record and a distance column that is not all missing,
    the parser returns a frame whose distance column is the parsed column
    itself when its maximum is below 1000, the column divided by 1000 when
    the maximum is at least 1000 and below 1,000,000, and the column
    divided by 100000 otherwise. *)
Theorem fit_distance_unit
    (first_record : gmap string pyval) (rest : list (gmap string pyval))
    (meta : Meta) (rows : list RawSample) :
  let records := first_record :: rest in
  is_Some (first_record !! "timestamp") →
  fit_rows records = Ok rows →
  let col := distance <$> rows in
  let max_dist := series_max col in
  isnull max_dist = false →
  Forall2 (λ data d, to_float (dict_get data "distance" (PyNum NaN)) = Ok d)
          records col
  ∧ ∃ df meta',
      fit_frame records meta = Ok (df, meta')
      ∧ (fltb max_dist (Fin 1000) = true → distance <$> df = col)
      ∧ (fgeb max_dist (Fin 1000) = true →
         fltb max_dist (Fin 1000000) = true →
         distance <$> df = (λ d, fdiv d (Fin 1000)) <$> col)
      ∧ (fgeb max_dist (Fin 1000000) = true →
         distance <$> df = (λ d, fdiv d (Fin 100000)) <$> col).
Proof.
  intros records Hts Hrows col max_dist Hmax.
  pose proof (mapM_result_Ok _ _ _ Hrows) as Hall.
  split.
  { unfold col. apply Forall2_fmap_r.
    eapply Forall2_impl; [exact Hall|]. intros data r. apply fit_row_distance. }
  destruct rows as [|first rows']; [by apply Forall2_nil_inv_r in Hall|].
  destruct (fit_frame_ok records meta _ _ Hrows) as [meta' ->].
  eexists _, _. split; [reflexivity|].
  set (df := (λ r, set_dtime (dtime r + WIB_OFFSET) r) <$> first :: rows').
  assert (distance <$> df = col) as Hdf
    by apply fmap_distance_set_dtime.
  assert (distance <$> fit_adjust records df
          = if fltb max_dist (Fin 1000) then col
            else if fltb max_dist (Fin 1000000)
                 then (λ d, fdiv d (Fin 1000)) <$> col
                 else (λ d, fdiv d (Fin 100000)) <$> col) as Hcol.
  { unfold records. rewrite fit_adjust_distance by done. cbv zeta.
    rewrite Hdf. fold max_dist. by rewrite Hmax. }
  rewrite Hcol. repeat split.
  - by intros ->.
  - intros Hge Hlt. apply fltb_false_fgeb in Hge; [|done].
    by rewrite Hge, Hlt.
  - intros Hge.
    apply fltb_false_fgeb in Hge as Hge'; [|done]. rewrite Hge'.
    assert (fltb max_dist (Fin 1000) = false) as ->; [|done].
    apply fltb_false_fgeb; [done|].
    apply fgeb_Fin_r in Hge as [->|(q & -> & Hq)]; [done|].
    apply fgeb_Fin_r. right. exists q. split; [done|].
    eapply Qle_trans; [|exact Hq]. done.
Qed.

(** ** The power curve *)

Lemma foldl_insert_lookup {V} (key : N → string) (f : N → V) (l : list N)
    (m : gmap string V) (p : N) :
  Inj (=) (=) key → p ∈ l →
  foldl (λ r p, <[key p := f p]> r) m l !! key p = Some (f p).
Proof.
  intros Hinj. induction l as [|x l IH] using rev_ind; intros Hp.
  - by apply elem_of_nil in Hp.
  - rewrite foldl_snoc. destruct (decide (x = p)) as [->|Hne].
    + apply lookup_insert_eq.
    + rewrite lookup_insert_ne by (intros Heq; by apply Hinj in Heq).
      apply IH. apply elem_of_app in Hp as [Hp|Hp]; [done|].
      apply list_elem_of_singleton in Hp. by subst.
Qed.

Lemma foldl_insert_lookup_ne {V} (key : N → string) (f : N → V) (l : list N)
    (m : gmap string V) (k : string) :
  Forall (λ p, key p ≠ k) l →
  foldl (λ r p, <[key p := f p]> r) m l !! k = m !! k.
Proof.
  induction l as [|x l IH] using rev_ind; intros Hl; [done|].
  apply Forall_app in Hl as [Hl Hx]. apply Forall_cons in Hx as [Hx _].
  simpl in Hx. rewrite foldl_snoc. rewrite lookup_insert_ne by exact Hx.
  by apply IH.
Qed.

Lemma periods_not_dtime : Forall (λ p : N, pretty p ≠ "dtime") periods.
Proof. apply (bool_decide_unpack _). by vm_compute. Qed.

Lemma calc_max_powers_nonempty (first : CleanedSample)
    (rest : list CleanedSample) :
  curve_powers (first :: rest) ≠ [] →
  calc_max_powers (first :: rest)
  = foldl (λ result p,
             <[pretty p := PyNum (max_power (curve_powers (first :: rest)) p)]>
               result)
          {[ "dtime" := PyTime (c_dtime first) ]} periods.
Proof.
  intros Hne. unfold calc_max_powers.
  rewrite decide_False.
  - by rewrite decide_False.
  - intros Hnil. apply Hne. unfold curve_powers. by rewrite Hnil.
Qed.

Lemma calc_max_powers_lookup (first : CleanedSample)
    (rest : list CleanedSample) (p : N) :
  curve_powers (first :: rest) ≠ [] → p ∈ periods →
  calc_max_powers (first :: rest) !! pretty p
  = Some (PyNum (max_power (curve_powers (first :: rest)) p)).
Proof.
  intros Hne Hp. rewrite calc_max_powers_nonempty by done.
  apply (foldl_insert_lookup pretty
           (λ p, PyNum (max_power (curve_powers (first :: rest)) p)));
    [apply _|done].
Qed.

Lemma calc_max_powers_dtime (first : CleanedSample)
    (rest : list CleanedSample) :
  curve_powers (first :: rest) ≠ [] →
  calc_max_powers (first :: rest) !! "dtime" = Some (PyTime (c_dtime first)).
Proof.
  intros Hne. rewrite calc_max_powers_nonempty by done.
  rewrite (foldl_insert_lookup_ne pretty
             (λ p, PyNum (max_power (curve_powers (first :: rest)) p)))
    by apply periods_not_dtime.
  apply lookup_singleton_eq.
Qed.

Lemma constant_curve_periods :
  Forall (λ p, (p <= 100)%N → max_power (replicate 100 (Fin 200)) p = Fin 200)
         periods.
Proof. apply (bool_decide_unpack _). by vm_compute. Qed.

(** C7: for 100 cleaned rows that all carry 200 W, the power curve holds
    exactly 200.0 under every ladder duration of at most 100 seconds. *)
Theorem constant_power_curve (df : list CleanedSample) :
  length df = 100%nat →
  Forall (λ r, c_power r = Fin 200) df →
  ∀ p, p ∈ periods → (p <= 100)%N →
       calc_max_powers df !! pretty p = Some (PyNum (Fin 200)).
Proof.
  intros Hlen Hall p Hp Hle.
  assert (c_power <$> df = replicate 100 (Fin 200)) as Hcol.
  { symmetry. apply replicate_as_Forall. rewrite length_fmap. split; [done|].
    apply Forall_fmap. eapply Forall_impl; [exact Hall|].
    intros r Hr. simpl. by rewrite Hr. }
  assert (curve_powers df = replicate 100 (Fin 200)) as Hpow.
  { unfold curve_powers. rewrite Hcol. by vm_compute. }
  destruct df as [|first rest]; [done|].
  rewrite calc_max_powers_lookup; [|by rewrite Hpow|done].
  rewrite Hpow. do 2 f_equal.
  pose proof constant_curve_periods as Hall'.
  rewrite Forall_forall in Hall'. by apply Hall'.
Qed.

Lemma finite_obs_cons (x : fval) (xs : Series) :
  finite_obs (x :: xs)
  = match x with Fin a => a :: finite_obs xs | _ => finite_obs xs end.
Proof. by destruct x. Qed.

Lemma length_finite_obs (xs : Series) :
  (length (finite_obs xs) <= length xs)%nat.
Proof.
  induction xs as [|x xs IH]; [done|].
  rewrite finite_obs_cons. destruct x; simpl; lia.
Qed.

Lemma length_window {A} (w i : nat) (xs : list A) :
  length (window w i xs) = (Nat.min (S i) (length xs) - (S i - w))%nat.
Proof. unfold window. by rewrite length_drop, length_take. Qed.

Lemma dropna_nil (xs : Series) : Forall (λ x, x = NaN) xs → dropna xs = [].
Proof.
  unfold dropna. induction 1 as [|x xs -> _ IH]; [done|].
  rewrite filter_cons_False; [done|]. simpl. by intros [].
Qed.

(** A window longer than the column is never complete. *)
Lemma rolling_mean_short (w : nat) (xs : Series) :
  (length xs < w)%nat → Forall (λ x, x = NaN) (rolling_mean w w xs).
Proof.
  intros Hlen. apply Forall_forall. intros v Hv.
  unfold rolling_mean in Hv.
  apply elem_of_lookup_imap_1 in Hv as (i & x & -> & Hi).
  apply lookup_lt_Some in Hi. cbv zeta.
  pose proof (length_finite_obs (window w i xs)) as Hobs.
  rewrite length_window in Hobs.
  destruct (Nat.leb_spec w (length (finite_obs (window w i xs)))); [lia|done].
Qed.

Lemma max_power_short (powers : Series) (p : N) :
  (length powers < N.to_nat p)%nat → max_power powers p = NaN.
Proof.
  intros H. unfold max_power, series_max.
  by rewrite (dropna_nil _ (rolling_mean_short _ _ H)).
Qed.

Lemma curve_powers_finite (df : list CleanedSample) :
  Forall (λ p, ∃ q, p = Fin q) (curve_powers df).
Proof.
  apply Forall_forall. intros p Hp. unfold curve_powers in Hp.
  apply list_elem_of_filter in Hp as [Hp _].
  apply Is_true_true, andb_true_iff in Hp as [Hge Hle].
  apply fgeb_Fin_r in Hge as [->|(q & -> & _)]; [done|]. by exists q.
Qed.

Lemma finite_obs_all (xs : Series) :
  Forall (λ p, ∃ q, p = Fin q) xs → length (finite_obs xs) = length xs.
Proof.
  induction 1 as [|x xs [q ->] _ IH]; [done|].
  rewrite finite_obs_cons. simpl. by rewrite IH.
Qed.

Lemma foldl_fmax2_not_null (x : fval) (r : Series) :
  isnull x = false → Forall (λ y, isnull y = false) r →
  isnull (foldl fmax2 x r) = false.
Proof.
  intros Hx Hr. revert x Hx. induction Hr as [|y r Hy _ IH]; intros x Hx.
  - done.
  - simpl. apply IH. unfold fmax2. by destruct (fltb x y).
Qed.

Lemma series_max_not_null (xs : Series) (q : Q) :
  Fin q ∈ xs → isnull (series_max xs) = false.
Proof.
  intros Hq. unfold series_max.
  assert (Fin q ∈ dropna xs) as Hin.
  { unfold dropna. apply list_elem_of_filter. by split. }
  assert (Forall (λ y, isnull y = false) (dropna xs)) as Hall.
  { apply Forall_forall. intros y Hy. unfold dropna in Hy.
    apply list_elem_of_filter in Hy as [Hy _].
    by apply Is_true_true, negb_true_iff in Hy. }
  destruct (dropna xs) as [|x r]; [by apply elem_of_nil in Hin|].
  apply Forall_cons in Hall as [Hx Hr]. by apply foldl_fmax2_not_null.
Qed.

(** A window no longer than a column of finite values is complete at the
    last row. *)
Lemma max_power_complete (powers : Series) (p : N) :
  Forall (λ x, ∃ q, x = Fin q) powers →
  (1 <= length powers)%nat → (N.to_nat p <= length powers)%nat →
  isnull (max_power powers p) = false.
Proof.
  intros Hfin Hn Hp. unfold max_power.
  set (w := N.to_nat p) in *. set (i := (length powers - 1)%nat).
  assert (length (finite_obs (window w i powers)) = w) as Hw.
  { rewrite finite_obs_all.
    - rewrite length_window. lia.
    - unfold window. by apply Forall_drop, Forall_take. }
  destruct (lookup_lt_is_Some_2 powers i ltac:(lia)) as [x Hx].
  pose proof (elem_of_lookup_imap_2
                (λ i _, let obs := finite_obs (window w i powers) in
                        if (w <=? length obs)%nat
                        then Fin (Qsum obs / Qnat (length obs)) else NaN)
                powers x i Hx) as Hin.
  cbv beta zeta in Hin. rewrite Hw, Nat.leb_refl in Hin.
  apply series_max_not_null in Hin. revert Hin. unfold rolling_mean.
  by destruct (series_max _).
Qed.

(** C10: when [n >= 1] power samples survive the filters, the result holds
    an entry for every ladder duration; the entry is missing whenever the
    duration exceeds [n] (and only then), and the ['dtime'] entry is the
    timestamp of the first input row, whether or not that row survived. *)
Theorem power_curve_short_windows (first : CleanedSample)
    (rest : list CleanedSample) :
  let df := first :: rest in
  let n := length (curve_powers df) in
  (1 <= n)%nat →
  calc_max_powers df !! "dtime" = Some (PyTime (c_dtime first))
  ∧ ∀ p, p ∈ periods →
      ∃ v, calc_max_powers df !! pretty p = Some (PyNum v)
           ∧ ((n < N.to_nat p)%nat → v = NaN)
           ∧ ((N.to_nat p <= n)%nat → isnull v = false).
Proof.
  intros df n Hn.
  assert (curve_powers df ≠ []) as Hne.
  { intros Hnil. unfold n in Hn. rewrite Hnil in Hn. simpl in Hn. lia. }
  split; [by apply calc_max_powers_dtime|].
  intros p Hp. eexists. split; [by apply calc_max_powers_lookup|].
  split.
  - apply max_power_short.
  - intros Hle. apply max_power_complete; [apply curve_powers_finite|done..].
Qed.

(** C10, the first row itself: a first row at 5 W is removed by the bounds
    filter, two samples remain, the timestamp is still that of the removed
    row, and the three-second entry is missing. *)
Lemma power_curve_coasting_start :
  curve_powers df_coasting_start = [Fin 100; Fin 300]
  ∧ calc_max_powers df_coasting_start !! "dtime" = Some (PyTime 7)
  ∧ calc_max_powers df_coasting_start !! "1" = Some (PyNum (Fin 300))
  ∧ calc_max_powers df_coasting_start !! "2" = Some (PyNum (Fin 200))
  ∧ calc_max_powers df_coasting_start !! "3" = Some (PyNum NaN)
  ∧ calc_max_powers df_coasting_start !! "43200" = Some (PyNum NaN).
Proof. by vm_compute. Qed.

(** * Further properties of the normaliser *)

Section CleanedFrame.
Variable geodesic : fval * fval → fval * fval → fval.

(** The rows of the cleaned frame, one per kept position. *)
Lemma process_activity_rows (df : list RawSample) (meta : Meta)
    (min_kph : Q) (out : list CleanedSample) (meta' : Meta) :
  _process_activity geodesic df meta min_kph = Ok (out, meta') →
  ∃ movement distances,
    movement_step geodesic (clamp_sample <$> df) = Ok (movement, distances)
    ∧ let dfc := clamp_sample <$> df in
      let mv := round_clip_movement movement in
      let durations := duration_column (dtime <$> df) in
      let kept := kept_rows min_kph mv in
      out = imap (λ k i,
                    {| c_dtime := (dtime <$> df) !!! i;
                       c_duration := durations !!! i;
                       c_mov_duration := k;
                       c_latt := (latt <$> df) !!! i;
                       c_long := (long <$> df) !!! i;
                       c_elevation := fround 2 ((elevation <$> dfc) !!! i);
                       c_movement := mv !!! i;
                       c_distance := fround 3 (distances !!! i);
                       c_hr := rolling_mean 2 1 (hr <$> dfc) !!! i;
                       c_cadence := rolling_mean 2 1 (cadence <$> dfc) !!! i;
                       c_speed := fround 2 (speed_column mv durations !!! i);
                       c_power := rolling_mean 2 1 (power <$> dfc) !!! i;
                       c_temp := rolling_mean 2 1 (temp <$> dfc) !!! i |})
                 kept
      ∧ m_dtime meta' = m_dtime meta
      ∧ m_title meta' = m_title meta
      ∧ m_src_file meta' = m_src_file meta
      ∧ sports !! m_sport meta = Some (m_sport meta')
      ∧ m_summary meta'
        = Some (if decide (kept = []) then empty_summary
                else summarize (length kept)
                       (select kept distances) (select kept durations)
                       (select kept (elevation <$> dfc))
                       (select kept (speed_column mv durations))
                       (select kept (rolling_mean 2 1 (hr <$> dfc)))
                       (select kept (rolling_mean 2 1 (power <$> dfc)))
                       (select kept (rolling_mean 2 1 (cadence <$> dfc)))
                       (select kept (rolling_mean 2 1 (temp <$> dfc)))).
Proof.
  unfold _process_activity.
  destruct (movement_step geodesic (clamp_sample <$> df))
    as [[movement distances]|e]; simpl; [|done].
  destruct (sports !! m_sport meta) as [sport|] eqn:Hs; [|done].
  intros [= <- <-]. exists movement, distances. split; [done|]. cbv zeta.
  rewrite fmap_clamp_dtime, fmap_clamp_latt, fmap_clamp_long. done.
Qed.

End CleanedFrame.

(** ** Which rows come out, and in which order *)

Lemma select_app {A} `{Inhabited A} (k1 k2 : list nat) (col : list A) :
  select (k1 ++ k2) col = select k1 col ++ select k2 col.
Proof. unfold select. apply fmap_app. Qed.

Lemma select_filter_seq_sublist {A} `{Inhabited A} (P : nat → Prop)
    `{∀ i, Decision (P i)} (col : list A) (a n : nat) :
  (a + n <= length col)%nat →
  select (filter P (seq a n)) col `sublist_of` take n (drop a col).
Proof.
  induction n as [|n IH]; intros Hlen; [by rewrite take_0|].
  rewrite seq_S, filter_app, select_app.
  destruct (lookup_lt_is_Some_2 col (a + n) ltac:(lia)) as [x Hx].
  rewrite (take_S_r _ _ x) by (by rewrite lookup_drop).
  apply sublist_app; [apply IH; lia|].
  rewrite filter_cons, filter_nil. case_decide.
  - unfold select. simpl. by rewrite (list_lookup_total_correct _ _ _ Hx).
  - apply sublist_nil_l.
Qed.

Lemma select_kept_sublist {A} `{Inhabited A} (min_kph : Q) (movement : Series)
    (col : list A) :
  length col = length movement →
  select (kept_rows min_kph movement) col `sublist_of` col.
Proof.
  intros Hlen. unfold kept_rows.
  pose proof (select_filter_seq_sublist
                (λ i, fgeb (movement !!! i) (Fin (min_movement min_kph)))
                col 0 (length movement) ltac:(lia)) as Hsub.
  rewrite drop_0 in Hsub. by rewrite take_ge in Hsub by lia.
Qed.

Lemma select_fmap {A B} `{Inhabited A, Inhabited B} (f : A → B)
    (kept : list nat) (col : list A) :
  Forall (λ i, (i < length col)%nat) kept →
  select kept (f <$> col) = f <$> select kept col.
Proof.
  intros Hb. unfold select. rewrite <- list_fmap_compose.
  apply Forall_fmap_ext_1. eapply Forall_impl; [exact Hb|].
  intros i Hi. simpl. by apply list_lookup_total_fmap.
Qed.

Lemma kept_rows_bound (min_kph : Q) (movement : Series) :
  Forall (λ i, (i < length movement)%nat) (kept_rows min_kph movement).
Proof.
  apply Forall_forall. intros i Hi. by apply elem_of_kept_rows in Hi as [? _].
Qed.

Lemma lookup_total_fmap_Some {A B} `{Inhabited B} (f : A → B) (l : list A)
    (i : nat) (x : A) :
  l !! i = Some x → (f <$> l) !!! i = f x.
Proof.
  intros Hx. apply list_lookup_total_correct. by rewrite list_lookup_fmap, Hx.
Qed.

Lemma fmap_imap_elem {A B C} (f : nat → A → B) (g : B → C) (h : A → C)
    (l : list A) :
  (∀ k x, l !! k = Some x → g (f k x) = h x) → g <$> imap f l = h <$> l.
Proof.
  intros Hf. rewrite fmap_imap.
  trans (imap (const h) l); [|apply imap_const].
  apply imap_ext. intros k x Hx. simpl. by apply Hf.
Qed.

Section NormalizerRows.
Variable geodesic : fval * fval → fval * fval → fval.

Lemma process_activity_fix (df : list RawSample) (meta : Meta)
    (min_kph : Q) (out : list CleanedSample) (meta' : Meta) :
  _process_activity geodesic df meta min_kph = Ok (out, meta') →
  ∃ movement distances,
    movement_step geodesic (clamp_sample <$> df) = Ok (movement, distances)
    ∧ cleaned_fix <$> out
      = select (kept_rows min_kph (round_clip_movement movement))
               (raw_fix <$> df).
Proof.
  intros H.
  apply process_activity_rows in H as (mv & ds & Hstep & Hrows & _).
  exists mv, ds. split; [done|]. rewrite Hrows.
  assert (length (round_clip_movement mv) = length df) as Hlen.
  { rewrite length_round_clip_movement.
    apply movement_step_length in Hstep as [-> _]. by rewrite length_fmap. }
  unfold select. apply fmap_imap_elem. intros k i Hi.
  unfold cleaned_fix. simpl.
  assert (i < length df)%nat as Hb.
  { rewrite <- Hlen. apply list_elem_of_lookup_2 in Hi.
    by apply elem_of_kept_rows in Hi as [? _]. }
  destruct (lookup_lt_is_Some_2 df i Hb) as [r Hr].
  by rewrite !(lookup_total_fmap_Some _ _ _ _ Hr).
Qed.

(** X2: the normaliser only removes rows.  The timestamps and positions of
    the cleaned frame are a subsequence of those of the input: nothing is
    reordered, duplicated or altered. *)
Theorem cleaned_rows_subsequence (df : list RawSample) (meta : Meta)
    (min_kph : Q) (out : list CleanedSample) (meta' : Meta) :
  _process_activity geodesic df meta min_kph = Ok (out, meta') →
  cleaned_fix <$> out `sublist_of` raw_fix <$> df.
Proof.
  intros H. apply process_activity_fix in H as (mv & ds & Hstep & ->).
  apply select_kept_sublist.
  rewrite length_round_clip_movement, length_fmap.
  apply movement_step_length in Hstep as [-> _]. by rewrite length_fmap.
Qed.

(** X3: [duration] counts from the first row of the input, whether or not
    that row is kept: every cleaned row carries its own timestamp minus the
    timestamp of the first input row, in seconds. *)
Theorem duration_from_first_input_row (first : RawSample)
    (rest : list RawSample) (meta : Meta) (min_kph : Q)
    (out : list CleanedSample) (meta' : Meta) :
  _process_activity geodesic (first :: rest) meta min_kph = Ok (out, meta') →
  ∀ r, r ∈ out →
       c_duration r = Fin ((c_dtime r - dtime first) # 1000000000).
Proof.
  intros H r Hr.
  apply process_activity_rows in H as (mv & ds & Hstep & Hrows & _).
  rewrite Hrows in Hr.
  apply elem_of_lookup_imap_1 in Hr as (k & i & -> & Hi).
  cbn [c_duration c_dtime].
  assert (i < length (first :: rest))%nat as Hb.
  { apply list_elem_of_lookup_2, elem_of_kept_rows in Hi as [Hi _].
    rewrite length_round_clip_movement in Hi.
    apply movement_step_length in Hstep as [Hlen _].
    by rewrite Hlen, length_fmap in Hi. }
  destruct (lookup_lt_is_Some_2 (dtime <$> first :: rest) i) as [t Ht];
    [by rewrite length_fmap|].
  rewrite (list_lookup_total_correct _ _ _ Ht).
  erewrite list_lookup_total_correct; [done|].
  by apply (duration_column_lookup (dtime <$> first :: rest) (dtime first) t i).
Qed.

End NormalizerRows.

(** ** What the normaliser does not look at *)

Lemma movement_step_columns geodesic (df1 df2 : list RawSample) :
  distance <$> df1 = distance <$> df2 →
  latt <$> df1 = latt <$> df2 →
  long <$> df1 = long <$> df2 →
  movement_step geodesic df1 = movement_step geodesic df2.
Proof.
  intros Hd Hla Hlo. unfold movement_step.
  destruct df1 as [|r1 df1], df2 as [|r2 df2]; try done.
  assert (distance r1 = distance r2) as Hd1 by (by injection Hd).
  assert (latt r1 = latt r2) as Hl1 by (by injection Hla).
  by rewrite Hd, Hla, Hlo, Hd1, Hl1.
Qed.

(** X4: when the first row has a distance, the geodesic library is never
    consulted: the normaliser gives the same result whatever the library
    would answer. *)
Theorem distance_branch_ignores_geodesic
    (geodesic1 geodesic2 : fval * fval → fval * fval → fval)
    (first : RawSample) (rest : list RawSample) (meta : Meta) (min_kph : Q) :
  isnull (distance first) = false →
  _process_activity geodesic1 (first :: rest) meta min_kph
  = _process_activity geodesic2 (first :: rest) meta min_kph.
Proof.
  intros Hd. unfold _process_activity. rewrite fmap_cons.
  by rewrite !movement_step_distance by done.
Qed.

(** X5: the speed a parser read from the file is never used.  Two frames
    that differ only in their [speed] column are normalised to the same
    result. *)
Theorem parsed_speed_is_ignored (geodesic : fval * fval → fval * fval → fval)
    (f : RawSample → fval) (df : list RawSample) (meta : Meta) (min_kph : Q) :
  _process_activity geodesic ((λ r, set_speed (f r) r) <$> df) meta min_kph
  = _process_activity geodesic df meta min_kph.
Proof.
  set (df' := (λ r, set_speed (f r) r) <$> df).
  assert (∀ g : RawSample → fval,
            (∀ r s, g (clamp_sample (set_speed s r)) = g (clamp_sample r)) →
            g <$> (clamp_sample <$> df') = g <$> (clamp_sample <$> df)) as Hcol.
  { intros g Hg. unfold df'. rewrite <- !list_fmap_compose.
    apply list_fmap_ext. intros i r _. simpl. apply Hg. }
  assert (dtime <$> (clamp_sample <$> df') = dtime <$> (clamp_sample <$> df))
    as Hdt.
  { unfold df'. rewrite <- !list_fmap_compose. by apply list_fmap_ext. }
  unfold _process_activity.
  rewrite (movement_step_columns geodesic (clamp_sample <$> df')
             (clamp_sample <$> df)) by (by apply Hcol).
  rewrite Hdt.
  by rewrite (Hcol power), (Hcol hr), (Hcol cadence), (Hcol temp),
    (Hcol elevation), (Hcol latt), (Hcol long).
Qed.

(** ** Rounding and averaging keep a bound *)

Lemma rint_le (x : Q) (z : Z) : (x <= inject_Z z)%Q → (rint x <= z)%Z.
Proof.
  intros Hx. unfold rint.
  pose proof (Qfloor_le x) as Hfl.
  assert (Qfloor x <= z)%Z as Hfz.
  { rewrite Zle_Qle. by eapply Qle_trans. }
  destruct (Qcompare_spec (x - inject_Z (Qfloor x)) (1 # 2)) as [He|Hl|Hg];
    [destruct (Z.even (Qfloor x))|..]; try done.
  - assert (inject_Z (Qfloor x) < inject_Z z)%Q as Hlt by lra.
    rewrite <- Zlt_Qlt in Hlt. lia.
  - assert (inject_Z (Qfloor x) < inject_Z z)%Q as Hlt by lra.
    rewrite <- Zlt_Qlt in Hlt. lia.
Qed.

Lemma rint_ge (x : Q) (z : Z) : (inject_Z z <= x)%Q → (z <= rint x)%Z.
Proof.
  intros Hx. unfold rint.
  assert (z <= Qfloor x)%Z as Hfz.
  { rewrite <- (Qfloor_Z z). by apply Qfloor_resp_le. }
  destruct (Qcompare_spec (x - inject_Z (Qfloor x)) (1 # 2)) as [He|Hl|Hg];
    [destruct (Z.even (Qfloor x))|..]; lia.
Qed.

Lemma scale_le (d : nat) (q : Q) (k : Z) :
  (q <= inject_Z k)%Q →
  (q * inject_Z (Z.pos (pow10 d)) <= inject_Z (k * Z.pos (pow10 d)))%Q.
Proof.
  intros Hq. rewrite inject_Z_mult.
  apply Qmult_le_compat_r; [done|]. by rewrite <- (Zle_Qle 0).
Qed.

Lemma scale_ge (d : nat) (q : Q) (k : Z) :
  (inject_Z k <= q)%Q →
  (inject_Z (k * Z.pos (pow10 d)) <= q * inject_Z (Z.pos (pow10 d)))%Q.
Proof.
  intros Hq. rewrite inject_Z_mult.
  apply Qmult_le_compat_r; [done|]. by rewrite <- (Zle_Qle 0).
Qed.

Lemma Qround_dec_le (d : nat) (q : Q) (k : Z) :
  (q <= inject_Z k)%Q → (Qround_dec d q <= inject_Z k)%Q.
Proof.
  intros Hq. unfold Qround_dec. rewrite Qred_correct.
  pose proof (rint_le _ _ (scale_le d q k Hq)) as Hr.
  revert Hr. generalize (pow10 d). intros p Hr.
  unfold Qle. simpl. by rewrite Z.mul_1_r.
Qed.

Lemma Qround_dec_ge (d : nat) (q : Q) (k : Z) :
  (inject_Z k <= q)%Q → (inject_Z k <= Qround_dec d q)%Q.
Proof.
  intros Hq. unfold Qround_dec. rewrite Qred_correct.
  pose proof (rint_ge _ _ (scale_ge d q k Hq)) as Hr.
  revert Hr. generalize (pow10 d). intros p Hr.
  unfold Qle. simpl. by rewrite Z.mul_1_r.
Qed.

Lemma Qsum_le (u : Q) (obs : list Q) :
  Forall (λ q, (q <= u)%Q) obs → (Qsum obs <= u * Qnat (length obs))%Q.
Proof.
  induction 1 as [|q obs Hq _ IH].
  - change (Qsum []) with 0%Q. change (Qnat (length [])) with 0%Q. lra.
  - change (Qsum (q :: obs)) with (q + Qsum obs)%Q.
    replace (Qnat (length (q :: obs))) with (inject_Z (Z.of_nat (length obs) + 1)).
    + rewrite inject_Z_plus. unfold Qnat in IH.
      change (inject_Z 1) with 1%Q. lra.
    + unfold Qnat. f_equal. simpl length. lia.
Qed.

Lemma Qsum_ge (u : Q) (obs : list Q) :
  Forall (λ q, (u <= q)%Q) obs → (u * Qnat (length obs) <= Qsum obs)%Q.
Proof.
  induction 1 as [|q obs Hq _ IH].
  - change (Qsum []) with 0%Q. change (Qnat (length [])) with 0%Q. lra.
  - change (Qsum (q :: obs)) with (q + Qsum obs)%Q.
    replace (Qnat (length (q :: obs))) with (inject_Z (Z.of_nat (length obs) + 1)).
    + rewrite inject_Z_plus. unfold Qnat in IH.
      change (inject_Z 1) with 1%Q. lra.
    + unfold Qnat. f_equal. simpl length. lia.
Qed.

Lemma Qnat_pos (n : nat) : (0 < n)%nat → (0 < Qnat n)%Q.
Proof. intros Hn. unfold Qnat. rewrite <- (Zlt_Qlt 0). lia. Qed.

Lemma Qmean_le (u : Q) (obs : list Q) :
  obs ≠ [] → Forall (λ q, (q <= u)%Q) obs →
  (Qsum obs / Qnat (length obs) <= u)%Q.
Proof.
  intros Hne Hall. apply Qle_shift_div_r.
  - apply Qnat_pos. destruct obs; [done|simpl; lia].
  - by apply Qsum_le.
Qed.

Lemma Qmean_ge (u : Q) (obs : list Q) :
  obs ≠ [] → Forall (λ q, (u <= q)%Q) obs →
  (u <= Qsum obs / Qnat (length obs))%Q.
Proof.
  intros Hne Hall. apply Qle_shift_div_l.
  - apply Qnat_pos. destruct obs; [done|simpl; lia].
  - by apply Qsum_ge.
Qed.

Lemma elem_of_finite_obs (xs : Series) (q : Q) :
  q ∈ finite_obs xs ↔ Fin q ∈ xs.
Proof.
  unfold finite_obs. rewrite list_elem_of_omap. split.
  - intros (x & Hx & Hq). destruct x; simplify_eq. done.
  - intros Hq. by exists (Fin q).
Qed.

Lemma elem_of_window {A} (w i : nat) (xs : list A) (x : A) :
  x ∈ window w i xs → x ∈ xs.
Proof.
  unfold window. intros Hx.
  by apply (subseteq_take (S i) xs), (subseteq_drop (S i - w)).
Qed.

(** A rolling mean is missing or finite, and an upper (lower) bound on the
    finite cells of the column bounds every mean. *)
Lemma rolling_mean_bounds (w m : nat) (xs : Series) (v : fval) :
  (1 <= m)%nat → v ∈ rolling_mean w m xs →
  v = NaN
  ∨ ∃ q, v = Fin q
         ∧ (∀ u, (∀ a, Fin a ∈ xs → (a <= u)%Q) → (q <= u)%Q)
         ∧ (∀ u, (∀ a, Fin a ∈ xs → (u <= a)%Q) → (u <= q)%Q).
Proof.
  intros Hm Hv. unfold rolling_mean in Hv.
  apply elem_of_lookup_imap_1 in Hv as (i & x & -> & _). cbv zeta.
  set (obs := finite_obs (window w i xs)).
  assert (∀ a, a ∈ obs → Fin a ∈ xs) as Hobs.
  { intros a Ha. apply elem_of_finite_obs in Ha. by eapply elem_of_window. }
  destruct (Nat.leb_spec m (length obs)) as [Hle|Hlt]; [|by left].
  right. eexists. split; [done|].
  assert (obs ≠ []) as Hne by (intros E; rewrite E in Hle; simpl in Hle; lia).
  split; intros u Hu.
  - apply Qmean_le; [done|]. apply Forall_forall. intros a Ha. by apply Hu, Hobs.
  - apply Qmean_ge; [done|]. apply Forall_forall. intros a Ha. by apply Hu, Hobs.
Qed.

(** ** Ceilings and the first row *)

Lemma fgtb_Fin_false (v : fval) (u : Q) :
  (v = NaN ∨ ∃ q, v = Fin q ∧ (q <= u)%Q) → fgtb v (Fin u) = false.
Proof.
  intros [->|(q & -> & Hq)]; [done|].
  unfold fgtb. simpl. by apply Qlt_bool_false.
Qed.

Lemma rolling_mean_ceiling (w m : nat) (xs : Series) (u : Q) (i : nat) :
  (1 <= m)%nat → (i < length xs)%nat →
  (∀ a, Fin a ∈ xs → (a <= u)%Q) →
  rolling_mean w m xs !!! i = NaN
  ∨ ∃ q, rolling_mean w m xs !!! i = Fin q ∧ (q <= u)%Q.
Proof.
  intros Hm Hi Hu.
  destruct (lookup_lt_is_Some_2 (rolling_mean w m xs) i) as [v Hv];
    [by rewrite length_rolling_mean|].
  rewrite (list_lookup_total_correct _ _ _ Hv).
  apply list_elem_of_lookup_2 in Hv.
  destruct (rolling_mean_bounds w m xs v Hm Hv) as [->|(q & -> & Hle & _)];
    [by left|].
  right. exists q. split; [done|]. by apply Hle.
Qed.

Lemma clamped_column_ceiling (f : ClampedField) (df : list RawSample) (a : Q) :
  Fin a ∈ field_of f <$> (clamp_sample <$> df) →
  (a <= documented_ceiling f)%Q.
Proof.
  rewrite <- list_fmap_compose. intros Ha.
  apply list_elem_of_fmap in Ha as (r & Hr & _). simpl in Hr.
  rewrite clamp_sample_field in Hr. symmetry in Hr.
  by apply clip_upper_Fin in Hr as [? _].
Qed.

Lemma speed_column_ceiling (movement durations : Series) (i : nat) :
  (i < length (speed_column movement durations))%nat →
  speed_column movement durations !!! i = NaN
  ∨ ∃ q, speed_column movement durations !!! i = Fin q ∧ (q <= 100)%Q.
Proof.
  unfold speed_column. rewrite length_rolling_mean. intros Hi.
  apply rolling_mean_ceiling; [lia|done|].
  intros a Ha. apply list_elem_of_fmap in Ha as (x & Hx & _).
  destruct (fgtb x (Fin 100)) eqn:E.
  - injection Hx as ->. done.
  - subst x. unfold fgtb in E. simpl in E. by apply Qlt_bool_false.
Qed.

Lemma length_speed_column (movement durations : Series) :
  length movement = length durations →
  length (speed_column movement durations) = length movement.
Proof.
  intros H. unfold speed_column.
  rewrite length_rolling_mean, !length_fmap, length_zip_with, !length_fmap.
  rewrite length_fillna, length_diff. lia.
Qed.

Section NormalizerBounds.
Variable geodesic : fval * fval → fval * fval → fval.

(** X6: the ceilings survive smoothing and rounding.  In every row of the
    cleaned frame, elevation is not above 9000, heart rate not above 250,
    power not above 2500, cadence not above 210, temperature not above 55,
    and the recomputed speed not above 100. *)
Theorem cleaned_values_within_ceilings (df : list RawSample) (meta : Meta)
    (min_kph : Q) (out : list CleanedSample) (meta' : Meta) :
  _process_activity geodesic df meta min_kph = Ok (out, meta') →
  ∀ r, r ∈ out →
       fgtb (c_elevation r) (Fin 9000) = false
       ∧ fgtb (c_hr r) (Fin 250) = false
       ∧ fgtb (c_power r) (Fin 2500) = false
       ∧ fgtb (c_cadence r) (Fin 210) = false
       ∧ fgtb (c_temp r) (Fin 55) = false
       ∧ fgtb (c_speed r) (Fin 100) = false.
Proof.
  intros H r Hr.
  apply process_activity_rows in H as (mv & ds & Hstep & Hrows & _).
  rewrite Hrows in Hr.
  apply elem_of_lookup_imap_1 in Hr as (k & i & -> & Hi).
  cbn [c_elevation c_hr c_power c_cadence c_temp c_speed].
  apply movement_step_length in Hstep as [Hlen _].
  rewrite length_fmap in Hlen.
  assert (i < length df)%nat as Hb.
  { apply list_elem_of_lookup_2, elem_of_kept_rows in Hi as [Hi _].
    by rewrite length_round_clip_movement, Hlen in Hi. }
  assert (∀ f, fgtb (rolling_mean 2 1 (field_of f <$> (clamp_sample <$> df))
                       !!! i) (Fin (documented_ceiling f)) = false) as Hroll.
  { intros f. apply fgtb_Fin_false, rolling_mean_ceiling; [lia| |].
    - by rewrite !length_fmap.
    - intros a. apply clamped_column_ceiling. }
  split.
  { destruct (lookup_lt_is_Some_2 df i Hb) as [x Hx].
    rewrite (lookup_total_fmap_Some _ _ _ (clamp_sample x))
      by (by rewrite list_lookup_fmap, Hx).
    change (elevation (clamp_sample x)) with (clip_upper 9000 (elevation x)).
    destruct (clip_upper 9000 (elevation x)) as [| |a|] eqn:E; try done.
    - apply fgtb_Fin_false. right. eexists. split; [done|].
      apply (Qround_dec_le 2 a 9000). by apply clip_upper_Fin in E as [? _].
    - by apply clip_upper_not_PInf in E. }
  split; [apply (Hroll HeartRate)|].
  split; [apply (Hroll Power)|].
  split; [apply (Hroll Cadence)|].
  split; [apply (Hroll Temperature)|].
  apply fgtb_Fin_false.
  destruct (speed_column_ceiling (round_clip_movement mv)
              (duration_column (dtime <$> df)) i) as [->|(q & -> & Hq)].
  - rewrite length_speed_column; rewrite length_round_clip_movement;
      [lia|by rewrite length_duration_column, length_fmap].
  - by left.
  - right. eexists. split; [done|]. by apply (Qround_dec_le 2 q 100).
Qed.

(** X7: on the GPS branch the first row never comes out.  When the first
    row has no distance and the threshold is positive, its movement is 0,
    so the cleaned frame is drawn from the rows after the first. *)
Theorem gps_first_row_dropped (first : RawSample) (rest : list RawSample)
    (meta : Meta) (min_kph : Q) (out : list CleanedSample) (meta' : Meta) :
  isnull (distance first) = true →
  (0 < min_kph)%Q →
  _process_activity geodesic (first :: rest) meta min_kph = Ok (out, meta') →
  cleaned_fix <$> out `sublist_of` raw_fix <$> rest.
Proof.
  intros Hd Hkph H.
  apply process_activity_fix in H as (mv & ds & Hstep & ->).
  destruct (isnull (latt first)) eqn:Hl.
  { rewrite fmap_cons, movement_step_no_gps in Hstep; done. }
  rewrite fmap_cons, movement_step_gps in Hstep by done. cbv zeta in Hstep.
  set (movement := gps_movement _ _ _) in Hstep.
  assert (movement !! 0%nat = Some (Fin 0)) as H0.
  { unfold movement. rewrite <- !fmap_cons.
    by eapply (gps_movement_first geodesic (clamp_sample <$> first :: rest)). }
  assert (length movement = S (length rest)) as Hlen.
  { unfold movement. rewrite <- !fmap_cons.
    rewrite length_gps_movement; by rewrite !length_fmap. }
  assert (mv = <[0%nat := fmul (gps_distance movement !!! 0%nat) (Fin 1000)]>
                 movement) as -> by congruence.
  rewrite round_clip_movement_gps_head by done.
  assert (round_clip_movement movement !!! 0%nat = Fin 0) as Hhead.
  { apply list_lookup_total_correct.
    rewrite round_clip_movement_lookup, H0. by vm_compute. }
  unfold kept_rows. rewrite length_round_clip_movement, Hlen.
  cbn [seq]. rewrite filter_cons_False.
  - pose proof (select_filter_seq_sublist
                  (λ i, fgeb (round_clip_movement movement !!! i)
                             (Fin (min_movement min_kph)))
                  (raw_fix <$> first :: rest) 1 (length rest)) as Hsub.
    rewrite fmap_cons, skipn_cons, drop_0 in Hsub.
    rewrite take_ge in Hsub by (rewrite length_fmap; lia).
    rewrite fmap_cons. apply Hsub. simpl. rewrite length_fmap. lia.
  - rewrite Hhead. unfold fgeb. simpl. intros Hle%Is_true_true.
    apply Qle_bool_iff in Hle. unfold min_movement in Hle.
    assert (0 < min_kph * 1000 / 3600)%Q; [|lra].
    apply Qlt_shift_div_l; lra.
Qed.

End NormalizerBounds.

(** ** The summary and the frame agree *)

Lemma last_or_nan_select (kept : list nat) (i : nat) (col : Series) :
  last_or_nan (select (kept ++ [i]) col) = col !!! i.
Proof.
  unfold last_or_nan, select. rewrite fmap_app.
  change ((λ i, col !!! i) <$> [i]) with [col !!! i]. by rewrite last_snoc.
Qed.

Lemma imap_snoc {A B} (f : nat → A → B) (l : list A) (x : A) :
  imap f (l ++ [x]) = imap f l ++ [f (length l) x].
Proof. rewrite imap_app. simpl. by rewrite Nat.add_0_r. Qed.

Section NormalizerSummary.
Variable geodesic : fval * fval → fval * fval → fval.

(** X8: the summary is read off the last cleaned row.  When no row survives
    every summary key is NaN; otherwise the summary distance and duration
    are those of the last row, the moving duration is that row's
    [mov_duration], and the frame has one row more than that. *)
Theorem summary_matches_last_row (df : list RawSample) (meta : Meta)
    (min_kph : Q) (out : list CleanedSample) (meta' : Meta) :
  _process_activity geodesic df meta min_kph = Ok (out, meta') →
  match last out with
  | None => out = [] ∧ m_summary meta' = Some empty_summary
  | Some r =>
      ∃ s, m_summary meta' = Some s
           ∧ s_distance s = c_distance r
           ∧ s_duration s = c_duration r
           ∧ s_mov_duration s = Fin (Qnat (c_mov_duration r))
           ∧ length out = S (c_mov_duration r)
  end.
Proof.
  intros H.
  apply process_activity_rows in H
    as (mv & ds & Hstep & Hrows & _ & _ & _ & _ & Hsum).
  revert Hrows Hsum.
  generalize (kept_rows min_kph (round_clip_movement mv)). intros kept.
  destruct kept as [|i kept _] using rev_ind; intros -> Hsum.
  - by rewrite decide_True in Hsum by done.
  - rewrite imap_snoc, last_snoc.
    rewrite decide_False in Hsum by (by destruct kept).
    eexists. split; [exact Hsum|]. unfold summarize.
    cbn [s_distance s_duration s_mov_duration c_distance c_duration
         c_mov_duration].
    rewrite !last_or_nan_select, !length_app, length_imap.
    repeat split.
    + do 2 f_equal. simpl. lia.
    + simpl. lia.
Qed.

End NormalizerSummary.

(** * Further properties of the FIT parser *)

Lemma mapM_result_app_raise {A B} (f : A → result B) (l1 l2 : list A)
    (x : A) (k : list B) (e : exn) :
  mapM f l1 = Ok k → f x = Raise e → mapM f (l1 ++ x :: l2) = Raise e.
Proof.
  revert k. induction l1 as [|y l1 IH]; intros k; simpl.
  - intros _ ->. done.
  - destruct (f y) as [b|e'] eqn:Hy; simpl; [|done].
    destruct (mapM f l1) as [k'|e'] eqn:Hk; simpl; [|done].
    intros _ Hx. by rewrite (IH k' eq_refl Hx).
Qed.

Lemma mapM_result_length {A B} (f : A → result B) (l : list A) (k : list B) :
  mapM f l = Ok k → length k = length l.
Proof.
  intros H. apply mapM_result_Ok in H. symmetry. by eapply Forall2_length.
Qed.

(** X9: records without a time.  An empty record list raises [KeyError]
    (the frame has no [dtime] column).  A record whose [timestamp] entry, or
    failing that key its [time] entry, is absent or [None] raises the
    "Unable to get time information" assertion once the records before it
    have been read; a [timestamp] key holding [None] does so even when a
    [time] entry is present. *)
Theorem fit_records_without_time
    (geodesic : fval * fval → fval * fval → fval) (meta : Meta) :
  parse_fit_records geodesic [] meta = Raise (KeyError "dtime")
  ∧ ∀ before bad after rows,
      fit_rows before = Ok rows →
      dict_get bad "timestamp" (dict_get bad "time" PyNone) = PyNone →
      parse_fit_records geodesic (before ++ bad :: after) meta
      = Raise (AssertionError "Unable to get time information in fit record").
Proof.
  split; [done|].
  intros before bad after rows Hrows Hbad.
  unfold parse_fit_records, fit_frame, fit_rows.
  erewrite mapM_result_app_raise; [done|exact Hrows|].
  unfold fit_row. by rewrite Hbad.
Qed.

Lemma fit_frame_inv (records : list (gmap string pyval)) (meta : Meta)
    (df : list RawSample) (meta' : Meta) :
  fit_frame records meta = Ok (df, meta') →
  ∃ first rows',
    fit_rows records = Ok (first :: rows')
    ∧ let shifted :=
        (λ r, set_dtime (dtime r + WIB_OFFSET) r) <$> first :: rows' in
      df = fit_adjust records shifted
      ∧ m_dtime meta'
        = match m_dtime meta with
          | Some t => Some t
          | None => Some (dtime first + WIB_OFFSET)%Z
          end
      ∧ m_sport meta' = guess_sport records df (m_sport meta)
      ∧ m_title meta' = m_title meta
      ∧ m_src_file meta' = m_src_file meta
      ∧ m_summary meta' = m_summary meta.
Proof.
  unfold fit_frame. destruct (fit_rows records) as [rows|e]; simpl; [|done].
  destruct rows as [|first rows']; [done|].
  intros [= <- <-]. exists first, rows'. by destruct (m_dtime meta).
Qed.

Lemma fit_adjust_other_columns (g : RawSample → fval)
    (records : list (gmap string pyval)) (df : list RawSample) :
  (∀ la lo r, g (set_latt_long la lo r) = g r) →
  (∀ d r, g (set_distance d r) = g r) →
  g <$> fit_adjust records df = g <$> df.
Proof.
  intros Hll Hd.
  assert (∀ l, g <$> fix_semicircles l = g <$> l) as Hsemi.
  { intros l. unfold fix_semicircles. destruct (_ || _); [|done].
    rewrite <- list_fmap_compose. apply list_fmap_ext. intros. apply Hll. }
  assert (∀ l, g <$> resolve_distance_unit l = g <$> l) as Hres.
  { intros l. unfold resolve_distance_unit.
    repeat match goal with |- context [if ?b then _ else _] => destruct b end;
      try done; rewrite <- list_fmap_compose; apply list_fmap_ext;
      intros; apply Hd. }
  unfold fit_adjust. destruct records as [|rec ?], df as [|first ?]; try done.
  case_decide; [|done]. rewrite Hres. by destruct (isnull (latt first)).
Qed.

Lemma fit_adjust_dtime (records : list (gmap string pyval))
    (df : list RawSample) :
  dtime <$> fit_adjust records df = dtime <$> df.
Proof.
  assert (∀ l, dtime <$> fix_semicircles l = dtime <$> l) as Hsemi.
  { intros l. unfold fix_semicircles. destruct (_ || _); [|done].
    rewrite <- list_fmap_compose. by apply list_fmap_ext. }
  assert (∀ l, dtime <$> resolve_distance_unit l = dtime <$> l) as Hres.
  { intros l. unfold resolve_distance_unit.
    repeat match goal with |- context [if ?b then _ else _] => destruct b end;
      try done; rewrite <- list_fmap_compose; by apply list_fmap_ext. }
  unfold fit_adjust. destruct records as [|rec ?], df as [|first ?]; try done.
  case_decide; [|done]. rewrite Hres. by destruct (isnull (latt first)).
Qed.

(** X10: what the FIT parser never touches.  Whenever it hands a frame to
    the normaliser, every timestamp is the record's plus seven hours, the
    elevation, heart-rate, cadence, speed, power and temperature columns
    are the records' values, title and source file are the caller's, and
    the activity time is the caller's or else the first shifted timestamp.
    When the first record has no [timestamp] key, position and distance
    are the records' values as well. *)
Theorem fit_frame_passthrough (records : list (gmap string pyval))
    (meta : Meta) (df : list RawSample) (meta' : Meta) :
  fit_frame records meta = Ok (df, meta') →
  ∃ rows,
    fit_rows records = Ok rows
    ∧ dtime <$> df = (λ t, (t + 7 * 3600 * 1000000000)%Z) <$> (dtime <$> rows)
    ∧ elevation <$> df = elevation <$> rows
    ∧ hr <$> df = hr <$> rows
    ∧ cadence <$> df = cadence <$> rows
    ∧ speed <$> df = speed <$> rows
    ∧ power <$> df = power <$> rows
    ∧ temp <$> df = temp <$> rows
    ∧ m_title meta' = m_title meta
    ∧ m_src_file meta' = m_src_file meta
    ∧ m_dtime meta' = match m_dtime meta with
                      | Some t => Some t
                      | None => head (dtime <$> df)
                      end
    ∧ (∀ first_record, head records = Some first_record →
         first_record !! "timestamp" = None →
         latt <$> df = latt <$> rows
         ∧ long <$> df = long <$> rows
         ∧ distance <$> df = distance <$> rows).
Proof.
  intros H.
  apply fit_frame_inv
    in H as (first & rows' & Hrows & -> & Hdt & _ & Hti & Hsrc & _).
  exists (first :: rows'). split; [done|].
  set (shifted := (λ r, set_dtime (dtime r + WIB_OFFSET) r) <$> first :: rows').
  assert (∀ g : RawSample → fval,
            (∀ t r, g (set_dtime t r) = g r) →
            g <$> shifted = g <$> first :: rows') as Hshift.
  { intros g Hg. unfold shifted. rewrite <- list_fmap_compose.
    apply list_fmap_ext. intros. apply Hg. }
  split.
  { rewrite fit_adjust_dtime. unfold shifted.
    rewrite <- !list_fmap_compose. by apply list_fmap_ext. }
  do 6 (split; [rewrite fit_adjust_other_columns by done; by apply Hshift|]).
  split; [done|]. split; [done|]. split.
  { rewrite Hdt, fit_adjust_dtime. by destruct (m_dtime meta). }
  intros first_record Hhead Hts.
  destruct records as [|rec records']; [done|]. injection Hhead as ->.
  assert (fit_adjust (first_record :: records') shifted = shifted) as ->.
  { unfold fit_adjust, shifted. rewrite fmap_cons.
    rewrite decide_False; [done|]. rewrite Hts. by intros [? ?]. }
  repeat split; by apply Hshift.
Qed.

Lemma fit_adjust_garmin (first_record : gmap string pyval)
    (rest : list (gmap string pyval)) (first : RawSample)
    (df : list RawSample) :
  is_Some (first_record !! "timestamp") →
  fit_adjust (first_record :: rest) (first :: df)
  = resolve_distance_unit
      (if isnull (latt first) then first :: df
       else fix_semicircles (first :: df)).
Proof. intros Hts. unfold fit_adjust. by rewrite decide_True. Qed.

Lemma resolve_distance_unit_latt_long (df : list RawSample) :
  latt <$> resolve_distance_unit df = latt <$> df
  ∧ long <$> resolve_distance_unit df = long <$> df.
Proof.
  unfold resolve_distance_unit.
  repeat match goal with |- context [if ?b then _ else _] => destruct b end;
    try done; rewrite <- !list_fmap_compose; split; by apply list_fmap_ext.
Qed.

Lemma fix_semicircles_latt_long (df : list RawSample) :
  let out_of_range :=
    fgtb (series_max (latt <$> df)) (Fin 90)
    || fltb (series_min (latt <$> df)) (Fin (-90)) in
  latt <$> fix_semicircles df
  = (if out_of_range then (λ x, fmul x (Fin semicircle)) <$> (latt <$> df)
     else latt <$> df)
  ∧ long <$> fix_semicircles df
    = (if out_of_range then (λ x, fmul x (Fin semicircle)) <$> (long <$> df)
       else long <$> df).
Proof.
  cbv zeta. unfold fix_semicircles. destruct (_ || _); [|done].
  rewrite <- !list_fmap_compose. split; by apply list_fmap_ext.
Qed.

(** X11: semicircle positions.  For records with a [timestamp] key whose
    first latitude is present, the parser multiplies every latitude and
    every longitude by 180/2^31 exactly when some latitude lies outside
    [-90, 90], and leaves both columns alone otherwise; when the first
    latitude is missing it leaves them alone whatever the later rows hold.
    The factor sends 2^30 to 90 and keeps any value between -2^31 and 2^31
    within [-180, 180]. *)
Theorem fit_semicircle_conversion (first_record : gmap string pyval)
    (rest : list (gmap string pyval)) (meta : Meta)
    (first : RawSample) (rows' : list RawSample) :
  let records := first_record :: rest in
  let rows := first :: rows' in
  is_Some (first_record !! "timestamp") →
  fit_rows records = Ok rows →
  ∃ df meta',
    fit_frame records meta = Ok (df, meta')
    ∧ (if negb (isnull (latt first))
          && (fgtb (series_max (latt <$> rows)) (Fin 90)
              || fltb (series_min (latt <$> rows)) (Fin (-90)))
       then latt <$> df = (λ x, fmul x (Fin semicircle)) <$> (latt <$> rows)
            ∧ long <$> df = (λ x, fmul x (Fin semicircle)) <$> (long <$> rows)
       else latt <$> df = latt <$> rows ∧ long <$> df = long <$> rows)
    ∧ (∃ q, fmul (Fin (2 ^ 30)) (Fin semicircle) = Fin q ∧ (q == 90)%Q)
    ∧ (∀ a, (- (2 ^ 31) <= a)%Q → (a <= 2 ^ 31)%Q →
         ∃ q, fmul (Fin a) (Fin semicircle) = Fin q
              ∧ (-180 <= q)%Q ∧ (q <= 180)%Q).
Proof.
  intros records rows Hts Hrows.
  destruct (fit_frame_ok records meta _ _ Hrows) as [meta' Hframe].
  eexists _, meta'. split; [exact Hframe|].
  split; [|split].
  - set (shifted := (λ r, set_dtime (dtime r + WIB_OFFSET) r) <$> first :: rows').
    assert (latt <$> shifted = latt <$> rows) as Hla.
    { unfold shifted. rewrite <- list_fmap_compose. by apply list_fmap_ext. }
    assert (long <$> shifted = long <$> rows) as Hlo.
    { unfold shifted. rewrite <- list_fmap_compose. by apply list_fmap_ext. }
    assert (∃ s0 srest, shifted = s0 :: srest ∧ latt s0 = latt first)
      as (s0 & srest & Hs & Hs0).
    { unfold shifted. rewrite fmap_cons. by eexists _, _. }
    unfold records. rewrite Hs, fit_adjust_garmin, Hs0, <- Hs by done.
    destruct (resolve_distance_unit_latt_long
                (if isnull (latt first) then shifted
                 else fix_semicircles shifted)) as [-> ->].
    destruct (isnull (latt first)); cbn [negb andb]; [by rewrite Hla, Hlo|].
    destruct (fix_semicircles_latt_long shifted) as [-> ->].
    rewrite Hla, Hlo. by destruct (_ || _).
  - eexists. split; [reflexivity|]. by vm_compute.
  - intros a Hlo Hhi. eexists. split; [reflexivity|].
    unfold semicircle.
    assert (2 ^ 31 == 2147483648)%Q as E by (by vm_compute).
    rewrite E in Hlo, Hhi. clear E.
    split; lra.
Qed.

Lemma movement_step_errors geodesic (df : list RawSample) (e : exn) :
  movement_step geodesic df = Raise e →
  e = IndexError
  ∨ e = AssertionError
          "Unable to calculate distance because GPS coordinates are null".
Proof.
  destruct df as [|first rest]; [intros [= <-]; by left|].
  unfold movement_step.
  destruct (isnull (distance first)); [|done].
  destruct (isnull (latt first)); [|done].
  intros [= <-]. by right.
Qed.

Lemma process_activity_no_KeyError geodesic (df : list RawSample)
    (meta : Meta) (min_kph : Q) (key : string) :
  is_Some (sports !! m_sport meta) →
  _process_activity geodesic df meta min_kph ≠ Raise (KeyError key).
Proof.
  intros [sport Hs]. unfold _process_activity.
  destruct (movement_step geodesic (clamp_sample <$> df))
    as [[mv ds]|e] eqn:Hstep; simpl.
  - by rewrite Hs.
  - intros [= ->]. by apply movement_step_errors in Hstep as [?|?].
Qed.

(** X12: the sport of a FIT activity.  A label given by the caller is
    forwarded as it is.  Without one the parser decides: "cycling" when
    some record has a power reading or more than 120 rows are faster than
    20, "running" otherwise; the normaliser then never fails on the sport
    lookup, and what it returns carries that same sport. *)
Theorem fit_sport_guess (geodesic : fval * fval → fval * fval → fval)
    (records : list (gmap string pyval)) (meta : Meta)
    (df : list RawSample) (meta' : Meta) :
  fit_frame records meta = Ok (df, meta') →
  (m_sport meta ≠ "" → m_sport meta' = m_sport meta)
  ∧ (m_sport meta = "" →
     m_sport meta'
     = (if has_power records
           || (120 <? length (filter (λ r, fgtb (speed r) (Fin 20)) df))%nat
        then "cycling" else "running")
     ∧ (∀ key, parse_fit_records geodesic records meta ≠ Raise (KeyError key))
     ∧ (∀ out meta'',
          parse_fit_records geodesic records meta = Ok (out, meta'') →
          m_sport meta'' = m_sport meta')).
Proof.
  intros Hframe.
  pose proof (fit_frame_inv _ _ _ _ Hframe)
    as (first & rows' & _ & _ & _ & Hsport & _).
  unfold guess_sport in Hsport. split.
  - intros Hne. by rewrite decide_False in Hsport.
  - intros Hempty. rewrite decide_True in Hsport by done.
    split; [done|].
    assert (sports !! m_sport meta' = Some (m_sport meta')) as Hs.
    { rewrite Hsport. by destruct (_ || _). }
    unfold parse_fit_records. rewrite Hframe. simpl. split.
    + intros key. by apply process_activity_no_KeyError.
    + intros out meta'' Hout.
      apply process_activity_columns in Hout as (_ & _ & _ & Hs' & _).
      congruence.
Qed.

(** ** The resolved distance unit *)

Lemma Qeq_bool_pos (c : Q) : (0 < c)%Q → Qeq_bool c 0 = false.
Proof.
  intros Hc. destruct (Qeq_bool c 0) eqn:E; [|done].
  apply Qeq_bool_iff in E. lra.
Qed.

Lemma Qlt_bool_pos (c : Q) : (0 < c)%Q → Qlt_bool c 0 = false.
Proof. intros Hc. apply Qlt_bool_false. lra. Qed.

Lemma Qlt_bool_ext (a b a' b' : Q) :
  ((a < b)%Q ↔ (a' < b')%Q) → Qlt_bool a b = Qlt_bool a' b'.
Proof.
  intros H. destruct (Qlt_bool a' b') eqn:E.
  - apply Qlt_bool_true, H. by apply Qlt_bool_true.
  - destruct (Qlt_bool a b) eqn:E'; [|done].
    apply Qlt_bool_true, H, Qlt_bool_true in E'. congruence.
Qed.

Lemma fdiv_pos_isnull (c : Q) (x : fval) :
  (0 < c)%Q → isnull (fdiv x (Fin c)) = isnull x.
Proof.
  intros Hc. destruct x; simpl; try done;
    rewrite ?(Qeq_bool_pos c Hc), ?(Qlt_bool_pos c Hc); done.
Qed.

Lemma fdiv_pos_fltb (c : Q) (x y : fval) :
  (0 < c)%Q → fltb (fdiv x (Fin c)) (fdiv y (Fin c)) = fltb x y.
Proof.
  intros Hc. destruct x as [| |a|], y as [| |b|]; simpl;
    rewrite ?(Qeq_bool_pos c Hc), ?(Qlt_bool_pos c Hc); try done.
  apply Qlt_bool_ext. unfold Qdiv.
  apply Qmult_lt_r. by apply Qinv_lt_0_compat.
Qed.

Lemma dropna_fmap (g : fval → fval) (xs : Series) :
  (∀ x, isnull (g x) = isnull x) → dropna (g <$> xs) = g <$> dropna xs.
Proof.
  intros Hg. unfold dropna. induction xs as [|x xs IH]; [done|].
  rewrite fmap_cons, !filter_cons, IH, Hg.
  by destruct (decide (negb (isnull x))).
Qed.

Lemma foldl_fmax2_fmap (g : fval → fval) (x : fval) (r : Series) :
  (∀ a b, fltb (g a) (g b) = fltb a b) →
  foldl fmax2 (g x) (g <$> r) = g (foldl fmax2 x r).
Proof.
  intros Hg. revert x. induction r as [|y r IH]; intros x; [done|].
  simpl. rewrite <- IH. f_equal. unfold fmax2. rewrite Hg.
  by destruct (fltb x y).
Qed.

(** The maximum of a column commutes with a division by a positive number. *)
Lemma series_max_fdiv (c : Q) (xs : Series) :
  (0 < c)%Q →
  series_max ((λ d, fdiv d (Fin c)) <$> xs) = fdiv (series_max xs) (Fin c).
Proof.
  intros Hc. unfold series_max.
  rewrite dropna_fmap by (intros; by apply fdiv_pos_isnull).
  destruct (dropna xs) as [|x r]; [done|].
  rewrite fmap_cons.
  apply (foldl_fmax2_fmap (λ d, fdiv d (Fin c))).
  intros. by apply fdiv_pos_fltb.
Qed.

(** X13: distances come out in kilometres.  For records with a [timestamp]
    key whose largest distance is below 1,000,000, the largest distance of
    the frame handed to the normaliser is below 1000. *)
Theorem fit_distance_below_1000 (first_record : gmap string pyval)
    (rest : list (gmap string pyval)) (meta : Meta) (rows : list RawSample) :
  let records := first_record :: rest in
  is_Some (first_record !! "timestamp") →
  fit_rows records = Ok rows →
  fltb (series_max (distance <$> rows)) (Fin 1000000) = true →
  ∃ df meta',
    fit_frame records meta = Ok (df, meta')
    ∧ fltb (series_max (distance <$> df)) (Fin 1000) = true.
Proof.
  intros records Hts Hrows Hmax.
  destruct rows as [|first rows'].
  { apply mapM_result_length in Hrows. done. }
  destruct (fit_frame_ok records meta _ _ Hrows) as [meta' Hframe].
  eexists _, meta'. split; [exact Hframe|].
  unfold records. rewrite fit_adjust_distance by done. cbv zeta.
  rewrite fmap_distance_set_dtime.
  remember (series_max (distance <$> first :: rows')) as m eqn:Em.
  destruct m as [| |a|]; [done| | |done].
  - cbn [isnull fltb]. by rewrite <- Em.
  - cbn [isnull]. destruct (fltb (Fin a) (Fin 1000)) eqn:Ea.
    + by rewrite <- Em.
    + rewrite Hmax, series_max_fdiv, <- Em by done. simpl.
      apply Qlt_bool_true. apply Qlt_bool_true in Hmax.
      apply Qlt_shift_div_r; [done|]. lra.
Qed.

(** * Further properties of the power curve *)

Lemma rint_mono (x y : Q) : (x <= y)%Q → (rint x <= rint y)%Z.
Proof.
  intros Hxy.
  pose proof (Qfloor_le x) as Hx1. pose proof (Qlt_floor x) as Hx2.
  pose proof (Qfloor_le y) as Hy1. pose proof (Qlt_floor y) as Hy2.
  pose proof (Qfloor_resp_le _ _ Hxy) as Hfl.
  rewrite inject_Z_plus in Hx2, Hy2.
  change (inject_Z 1) with 1%Q in Hx2, Hy2.
  destruct (decide (Qfloor x = Qfloor y)) as [Heq|Hne].
  - unfold rint. rewrite <- Heq in *.
    destruct (Qcompare_spec (x - inject_Z (Qfloor x)) (1 # 2)),
             (Qcompare_spec (y - inject_Z (Qfloor x)) (1 # 2));
      destruct (Z.even (Qfloor x)); try lia; exfalso; lra.
  - assert (rint x <= Qfloor x + 1)%Z.
    { unfold rint.
      destruct (Qcompare_spec (x - inject_Z (Qfloor x)) (1 # 2));
        destruct (Z.even (Qfloor x)); lia. }
    assert (Qfloor y <= rint y)%Z.
    { unfold rint.
      destruct (Qcompare_spec (y - inject_Z (Qfloor y)) (1 # 2));
        destruct (Z.even (Qfloor y)); lia. }
    lia.
Qed.

Lemma Qround_dec_mono (d : nat) (x y : Q) :
  (x <= y)%Q → (Qround_dec d x <= Qround_dec d y)%Q.
Proof.
  intros Hxy. unfold Qround_dec. rewrite !Qred_correct.
  assert (rint (x * inject_Z (Z.pos (pow10 d)))
          <= rint (y * inject_Z (Z.pos (pow10 d))))%Z as Hr.
  { apply rint_mono, Qmult_le_compat_r; [done|]. by rewrite <- (Zle_Qle 0). }
  revert Hr. generalize (pow10 d). intros p Hr.
  unfold Qle. simpl. by apply Z.mul_le_mono_nonneg_r.
Qed.

Lemma series_max_elem (xs : Series) :
  series_max xs = NaN ∨ series_max xs ∈ xs.
Proof.
  unfold series_max.
  assert (∀ x, x ∈ dropna xs → x ∈ xs) as Hsub.
  { intros x Hx. unfold dropna in Hx. by apply list_elem_of_filter in Hx as [_ ?]. }
  destruct (dropna xs) as [|x r]; [by left|]. right.
  assert (∀ y r', foldl fmax2 y r' = y ∨ foldl fmax2 y r' ∈ r') as Hfold.
  { intros y r'. revert y. induction r' as [|z r' IH]; intros y; [by left|].
    simpl. destruct (IH (fmax2 y z)) as [->|Hin].
    - unfold fmax2. destruct (fltb y z); [right; left|by left].
    - right. by right. }
  destruct (Hfold x r) as [->|Hin]; apply Hsub; [left|by right].
Qed.

Lemma foldl_fmax2_upper (a : Q) (r : Series) :
  Forall (λ x, ∃ q, x = Fin q) r →
  ∃ M, foldl fmax2 (Fin a) r = Fin M
       ∧ (a <= M)%Q ∧ ∀ b, Fin b ∈ r → (b <= M)%Q.
Proof.
  intros Hr. revert a. induction Hr as [|x r [q ->] _ IH]; intros a.
  - exists a. split; [done|]. split; [lra|]. intros b Hb. by apply elem_of_nil in Hb.
  - simpl. unfold fmax2 at 2. simpl.
    destruct (Qlt_bool a q) eqn:E.
    + destruct (IH q) as (M & -> & HqM & HM). exists M. split; [done|].
      apply Qlt_bool_true in E. split; [lra|].
      intros b [[= ->]|Hb]%elem_of_cons; [done|by apply HM].
    + destruct (IH a) as (M & -> & HaM & HM). exists M. split; [done|].
      apply Qlt_bool_false in E. split; [done|].
      intros b [[= ->]|Hb]%elem_of_cons; [lra|by apply HM].
Qed.

Lemma dropna_finite (xs : Series) :
  Forall (λ x, ∃ q, x = Fin q) xs → dropna xs = xs.
Proof.
  unfold dropna. induction 1 as [|x xs [q ->] _ IH]; [done|].
  rewrite filter_cons, IH. done.
Qed.

(** The maximum of a non-empty column of finite values is its largest
    value. *)
Lemma series_max_upper (xs : Series) :
  xs ≠ [] → Forall (λ x, ∃ q, x = Fin q) xs →
  ∃ M, series_max xs = Fin M ∧ ∀ b, Fin b ∈ xs → (b <= M)%Q.
Proof.
  intros Hne Hfin. unfold series_max. rewrite dropna_finite by done.
  destruct Hfin as [|x r [a ->] Hr]; [done|].
  destruct (foldl_fmax2_upper a r Hr) as (M & -> & HaM & HM).
  exists M. split; [done|].
  intros b [[= ->]|Hb]%elem_of_cons; [done|by apply HM].
Qed.

Lemma curve_powers_bounds (df : list CleanedSample) (a : Q) :
  Fin a ∈ curve_powers df → (20 <= a)%Q ∧ (a <= 3000)%Q.
Proof.
  unfold curve_powers. intros Ha.
  apply list_elem_of_filter in Ha as [Ha _].
  apply Is_true_true, andb_true_iff in Ha as [Hge Hle].
  unfold fgeb in Hge. simpl in Hge, Hle.
  by split; apply Qle_bool_iff.
Qed.

Lemma periods_positive : Forall (λ p, (1 <= N.to_nat p)%nat) periods.
Proof. apply (bool_decide_unpack _). by vm_compute. Qed.

Lemma curve_powers_nil (df : list CleanedSample) :
  curve_powers df = []
  ↔ ∀ r q, r ∈ df → c_power r = Fin q → ¬ ((20 <= q)%Q ∧ (q <= 3000)%Q).
Proof.
  unfold curve_powers, dropna. split.
  - intros Hnil r q Hr Hq [Hlo Hhi].
    assert (Fin q ∈ ([] : Series)) as Hin; [|by apply elem_of_nil in Hin].
    rewrite <- Hnil. apply list_elem_of_filter. split.
    + apply Is_true_true, andb_true_iff. unfold fgeb. simpl.
      by split; apply Qle_bool_iff.
    + apply list_elem_of_filter. split; [done|].
      apply list_elem_of_fmap. by exists r.
  - intros Hall. apply elem_of_nil_inv. intros x Hx.
    apply list_elem_of_filter in Hx as [Hrange Hx].
    apply list_elem_of_filter in Hx as [_ Hx].
    apply list_elem_of_fmap in Hx as (r & -> & Hr).
    apply Is_true_true, andb_true_iff in Hrange as [Hge Hle].
    apply fgeb_Fin_r in Hge as [HP|(q & Hq & Hlo)].
    + by rewrite HP in Hle.
    + apply (Hall r q Hr Hq). split; [done|].
      rewrite Hq in Hle. simpl in Hle. by apply Qle_bool_iff.
Qed.

(** X14: the empty result.  The power curve is the empty dict exactly when
    no row has a power within [20, 3000]; missing and infinite readings
    never count. *)
Theorem power_curve_empty_iff (df : list CleanedSample) :
  calc_max_powers df = ∅
  ↔ ∀ r q, r ∈ df → c_power r = Fin q → ¬ ((20 <= q)%Q ∧ (q <= 3000)%Q).
Proof.
  rewrite <- curve_powers_nil. split.
  - intros Hempty. destruct df as [|first rest]; [done|].
    destruct (decide (curve_powers (first :: rest) = [])) as [|Hne]; [done|].
    pose proof (calc_max_powers_dtime first rest Hne) as Hdt.
    by rewrite Hempty, lookup_empty in Hdt.
  - intros Hnil. unfold calc_max_powers. destruct df as [|first rest]; [done|].
    case_decide; [done|]. by rewrite decide_True.
Qed.

Lemma calc_max_powers_nil (df : list CleanedSample) :
  curve_powers df = [] → calc_max_powers df = ∅.
Proof.
  intros Hnil. unfold calc_max_powers. destruct df as [|first rest]; [done|].
  case_decide; [done|]. by rewrite decide_True.
Qed.

(** X15: the entries stay within the filter bounds.  Every entry of the
    power curve under a ladder duration is missing or lies between 20 and
    the largest power sample rounded to one decimal, itself at most 3000. *)
Theorem power_curve_entries_bounded (df : list CleanedSample) (p : N)
    (v : pyval) :
  p ∈ periods →
  calc_max_powers df !! pretty p = Some v →
  ∃ x, v = PyNum x
       ∧ (x = NaN
          ∨ ∃ q top,
              x = Fin q
              ∧ series_max (curve_powers df) = Fin top
              ∧ (20 <= q)%Q
              ∧ (q <= Qround_dec 1 top)%Q
              ∧ (Qround_dec 1 top <= 3000)%Q).
Proof.
  intros Hp Hv.
  destruct df as [|first rest]; [done|].
  destruct (decide (curve_powers (first :: rest) = [])) as [Hnil|Hne].
  { by rewrite (calc_max_powers_nil _ Hnil), lookup_empty in Hv. }
  rewrite calc_max_powers_lookup in Hv by done. injection Hv as <-.
  eexists. split; [done|]. unfold max_power.
  set (powers := curve_powers (first :: rest)) in *.
  destruct (series_max_upper powers Hne (curve_powers_finite _))
    as (top & Htop & Hupper).
  destruct (series_max_elem
              (rolling_mean (N.to_nat p) (N.to_nat p) powers)) as [->|Hin];
    [by left|].
  pose proof periods_positive as Hpos. rewrite Forall_forall in Hpos.
  destruct (rolling_mean_bounds _ _ _ _ (Hpos p Hp) Hin)
    as [->|(q & -> & Hle & Hge)]; [by left|].
  right. exists (Qround_dec 1 q), top. split; [done|]. split; [done|].
  split; [|split].
  - apply (Qround_dec_ge 1 q 20), Hge.
    intros a Ha. by apply curve_powers_bounds in Ha as [? _].
  - apply Qround_dec_mono, Hle. exact Hupper.
  - apply (Qround_dec_le 1 top 3000).
    assert (Fin top ∈ powers) as Hin'.
    { destruct (series_max_elem powers) as [E|E]; rewrite Htop in E; done. }
    by apply curve_powers_bounds in Hin' as [_ ?].
Qed.

(** * Gaps in the odometer, and distance from positions *)

Lemma diff_lookup (xs : Series) (i : nat) (x p : fval) :
  xs !! i = Some x → shift xs !! i = Some p →
  diff xs !! i = Some (fsub x p).
Proof.
  intros Hx Hp. unfold diff. apply lookup_zip_with_Some. by exists x, p.
Qed.

Lemma fsub_NaN_l (y : fval) : fsub NaN y = NaN.
Proof. done. Qed.

Lemma fsub_NaN_r (x : fval) : fsub x NaN = NaN.
Proof. by destruct x. Qed.

Section OdometerGaps.
Variable geodesic : fval * fval → fval * fval → fval.

Lemma movement_column_distance_branch (first : RawSample)
    (rest : list RawSample) :
  isnull (distance first) = false →
  let distances := distance <$> first :: rest in
  movement_column geodesic (first :: rest)
  = Ok (round_clip_movement
          (<[0%nat := fmul (distances !!! 0%nat) (Fin 1000)]>
             (diff ((λ d, fmul d (Fin 1000)) <$> distances)))).
Proof.
  intros Hd. cbv zeta. unfold movement_column. rewrite fmap_cons.
  rewrite movement_step_distance by done. cbv zeta.
  by rewrite <- fmap_cons, fmap_clamp_distance.
Qed.

(** X16: a gap in the odometer costs two rows.  On the distance branch a
    row whose distance is missing has a missing movement, and so has the
    row after it; neither survives the stationary-row filter. *)
Theorem missing_distance_drops_two_rows (first : RawSample)
    (rest : list RawSample) (min_kph : Q) (i : nat) (r : RawSample) :
  let df := first :: rest in
  isnull (distance first) = false →
  df !! i = Some r →
  isnull (distance r) = true →
  ∃ movement,
    movement_column geodesic df = Ok movement
    ∧ movement !! i = Some NaN
    ∧ (i ∉ kept_rows min_kph movement)
    ∧ (is_Some (df !! S i) →
       movement !! S i = Some NaN ∧ (S i ∉ kept_rows min_kph movement)).
Proof.
  intros df Hfirst Hr Hnull.
  assert (distance r = NaN) as Hd by (by destruct (distance r)).
  destruct i as [|i].
  { injection Hr as <-. by rewrite Hnull in Hfirst. }
  unfold df at 1. rewrite movement_column_distance_branch by done.
  cbv zeta. fold df.
  set (scaled := (λ d, fmul d (Fin 1000)) <$> (distance <$> df)).
  assert (scaled !! S i = Some NaN) as Hsi.
  { unfold scaled. by rewrite !list_lookup_fmap, Hr; simpl; rewrite Hd. }
  eexists. split; [done|].
  assert (∀ j, round_clip_movement
                 (<[0%nat := fmul ((distance <$> df) !!! 0%nat) (Fin 1000)]>
                    (diff scaled)) !! S j
               = (λ x, clip_upper max_movement (fround 3 x))
                   <$> diff scaled !! S j) as Hlook.
  { intros j. rewrite round_clip_movement_lookup.
    by rewrite list_lookup_insert_ne by done. }
  assert (∀ mv j, mv !! j = Some NaN → j ∉ kept_rows min_kph mv) as Hdrop.
  { intros mv j Hj Hin. apply elem_of_kept_rows in Hin as [_ Hge].
    by rewrite (list_lookup_total_correct _ _ _ Hj) in Hge. }
  assert (is_Some (scaled !! i)) as [prev Hprev].
  { apply lookup_lt_is_Some. apply lookup_lt_Some in Hsi. lia. }
  assert (diff scaled !! S i = Some NaN) as Hdiff.
  { rewrite (diff_lookup _ _ NaN prev); [done|done|].
    by rewrite (shift_lookup_S _ _ NaN). }
  split; [by rewrite Hlook, Hdiff|].
  split; [apply Hdrop; by rewrite Hlook, Hdiff|].
  intros [r' Hr'].
  assert (is_Some (scaled !! S (S i))) as [next Hnext].
  { unfold scaled. rewrite !list_lookup_fmap, Hr'. by eexists. }
  assert (diff scaled !! S (S i) = Some NaN) as Hdiff'.
  { rewrite (diff_lookup _ _ next NaN); [by rewrite fsub_NaN_r|done|].
    by rewrite (shift_lookup_S _ _ next). }
  split; [by rewrite Hlook, Hdiff'|apply Hdrop; by rewrite Hlook, Hdiff'].
Qed.

End OdometerGaps.

Lemma foldl_fadd_nonneg (a : Q) (l : Series) :
  Forall (λ x, ∃ q, x = Fin q ∧ (0 <= q)%Q) l →
  ∃ s, foldl fadd (Fin a) l = Fin s ∧ (a <= s)%Q.
Proof.
  intros Hl. revert a. induction Hl as [|x l (q & -> & Hq) _ IH]; intros a.
  - exists a. split; [done|lra].
  - simpl. destruct (IH (a + q)%Q) as (s & -> & Hs).
    exists s. split; [done|lra].
Qed.

Lemma cumsum_nondecreasing (xs : Series) (i j : nat) (a b : fval) :
  Forall (λ x, ∃ q, x = Fin q ∧ (0 <= q)%Q) xs →
  (i <= j)%nat → cumsum xs !! i = Some a → cumsum xs !! j = Some b →
  ∃ p q, a = Fin p ∧ b = Fin q ∧ (p <= q)%Q.
Proof.
  intros Hxs Hij Ha Hb.
  assert (Forall (λ x, isnull x = false) xs) as Hnn.
  { eapply Forall_impl; [exact Hxs|]. by intros x (q & -> & _). }
  assert (j < length xs)%nat as Hj.
  { apply lookup_lt_Some in Hb. unfold cumsum in Hb.
    by rewrite length_cumsum_from in Hb. }
  unfold cumsum in Ha, Hb.
  rewrite cumsum_from_lookup in Ha by (done || lia).
  rewrite cumsum_from_lookup in Hb by done.
  injection Ha as <-. injection Hb as <-.
  replace (S j) with (S i + (j - i))%nat by lia.
  rewrite <- take_take_drop, foldl_app.
  destruct (foldl_fadd_nonneg 0 (take (S i) xs)) as (p & -> & _);
    [by apply Forall_take|].
  destruct (foldl_fadd_nonneg p (take (j - i) (drop (S i) xs)))
    as (q & -> & Hpq); [by apply Forall_take, Forall_drop|].
  by exists p, q.
Qed.

Lemma gps_movement_nonneg geodesic (latts longs : Series) :
  (∀ p1 p2, is_distance (geodesic p1 p2)) →
  Forall (λ x, ∃ q, x = Fin q ∧ (0 <= q)%Q)
         (gps_movement geodesic latts longs).
Proof.
  intros Hgeo. unfold gps_movement, fillna.
  apply Forall_fmap, Forall_forall. intros x Hx. simpl.
  apply elem_of_lookup_zip_with in Hx as (i & [pla plo] & [la lo] & -> & _).
  unfold measure_distance.
  destruct (isnull pla || isnull la); simpl; [exists 0%Q; split; [done|lra]|].
  destruct (Hgeo (pla, plo) (la, lo)) as [->|(q & -> & Hq)]; simpl.
  - exists 0%Q. split; [done|lra].
  - by exists q.
Qed.

Section GpsDistance.
Variable geodesic : fval * fval → fval * fval → fval.

(** X17: distance derived from positions never decreases.  If the geodesic
    library only answers with distances (missing, or finite and not
    negative), then on the GPS branch the [distance] column of the cleaned
    frame is non-decreasing. *)
Theorem gps_distance_nondecreasing (first : RawSample)
    (rest : list RawSample) (meta : Meta) (min_kph : Q)
    (out : list CleanedSample) (meta' : Meta) :
  (∀ p1 p2, is_distance (geodesic p1 p2)) →
  isnull (distance first) = true →
  _process_activity geodesic (first :: rest) meta min_kph = Ok (out, meta') →
  Sorted fle (c_distance <$> out).
Proof.
  intros Hgeo Hd H.
  apply process_activity_columns
    in H as (mv & ds & Hstep & _ & _ & _ & _ & _ & Hdist).
  cbv zeta in Hdist. rewrite Hdist.
  destruct (isnull (latt first)) eqn:Hl.
  { rewrite fmap_cons, movement_step_no_gps in Hstep; done. }
  rewrite fmap_cons, movement_step_gps in Hstep by done. cbv zeta in Hstep.
  set (movement := gps_movement _ _ _) in Hstep.
  assert (ds = gps_distance movement) as -> by congruence.
  assert (length mv = length movement) as Hlen.
  { assert (mv = <[0%nat := fmul (gps_distance movement !!! 0%nat) (Fin 1000)]>
                   movement) as -> by congruence.
    by rewrite length_insert. }
  set (kept := kept_rows min_kph (round_clip_movement mv)).
  assert (Forall (λ i, (i < length (gps_distance movement))%nat) kept) as Hb.
  { rewrite length_gps_distance, <- Hlen, <- length_round_clip_movement.
    apply kept_rows_bound. }
  rewrite <- select_fmap by done.
  apply StronglySorted_Sorted, select_sorted.
  - apply kept_rows_sorted.
  - by rewrite length_fmap.
  - intros i j a b Hij Ha Hb'.
    unfold gps_distance in Ha, Hb'.
    rewrite !list_lookup_fmap in Ha, Hb'.
    destruct (cumsum movement !! i) as [ci|] eqn:Hci; [|done].
    destruct (cumsum movement !! j) as [cj|] eqn:Hcj; [|done].
    injection Ha as <-. injection Hb' as <-.
    destruct (cumsum_nondecreasing movement i j ci cj)
      as (p & q & -> & -> & Hpq); [|lia|done|done|].
    { by apply gps_movement_nonneg. }
    unfold fle. simpl. apply Qle_bool_iff, Qround_dec_mono.
    apply Qmult_le_compat_r; [done|]. by vm_compute.
Qed.

End GpsDistance.

(** * XML lookups *)

Lemma split_on_nonempty (sep : Ascii.ascii) (s : string) :
  split_on sep s ≠ [].
Proof.
  induction s as [|c s IH]; simpl; [done|].
  case_decide; [done|]. by destruct (split_on sep s).
Qed.

Lemma split_on_no_sep (sep : Ascii.ascii) (s : string) :
  has_char sep s = false → split_on sep s = [s].
Proof.
  induction s as [|c s IH]; simpl; [done|].
  intros [Hc Hs]%orb_false_iff. apply bool_decide_eq_false in Hc.
  rewrite decide_False by done. by rewrite IH.
Qed.

Lemma split_on_app (sep : Ascii.ascii) (a b : string) :
  has_char sep a = false →
  split_on sep (a +:+ String sep b) = a :: split_on sep b.
Proof.
  induction a as [|c a IH]; simpl.
  - intros _. by rewrite decide_True.
  - intros [Hc Ha]%orb_false_iff. apply bool_decide_eq_false in Hc.
    rewrite decide_False by done. by rewrite IH.
Qed.

(** X19: a tag path is followed one segment at a time.  For a tag without
    ['|'], looking up [tag|rest] finds the elements named [tag] anywhere
    below the element: none gives the default, or [KeyError] when there is
    no default; exactly one continues with [rest] inside it; more than one
    raises [RecursionError], default or not.  A path of one tag returns the
    joined text children of the single element found. *)
Theorem xml_path_val_step {D} (element : xml_node) (tag rest : string)
    (default : option D) :
  has_char pipe tag = false →
  xml_path_val element (tag +:+ "|" +:+ rest) default
  = match getElementsByTagName tag element with
    | [] => match default with
            | Some d => Return (Default d)
            | None => Throw (XKeyError tag)
            end
    | [node] => xml_path_val node rest default
    | _ :: _ :: _ => Throw (XRecursionError tag)
    end
  ∧ xml_path_val element tag default
    = match getElementsByTagName tag element with
      | [] => match default with
              | Some d => Return (Default d)
              | None => Throw (XKeyError tag)
              end
      | [node] => Return (Text (text_of node))
      | _ :: _ :: _ => Throw (XRecursionError tag)
      end.
Proof.
  intros Htag. unfold xml_path_val. split.
  - change ("|" +:+ rest) with (String pipe rest).
    by rewrite split_on_app.
  - by rewrite split_on_no_sep.
Qed.

Lemma xml_walk_default {D} (element : xml_node) (tags : list string)
    (default : option D) :
  (∀ d tag, default = Some d → xml_walk element tags default
                               ≠ Throw (XKeyError tag))
  ∧ (∀ d, default = None → xml_walk element tags default
                           ≠ Return (Default d)).
Proof.
  revert element. induction tags as [|tag tags IH]; intros element.
  - by split.
  - simpl. destruct (getElementsByTagName tag element) as [|node [|? ?]].
    + split; intros d; [intros t ->|intros ->]; done.
    + apply IH.
    + by split.
Qed.

(** X20: what a default buys.  With a default [xml_path_val] never raises
    [KeyError]; without one it never returns a default, so a returned value
    is always text read from the document. *)
Theorem xml_path_val_default {D} (element : xml_node) (tag_names : string)
    (d : D) :
  (∀ tag, xml_path_val element tag_names (Some d) ≠ Throw (XKeyError tag))
  ∧ (∀ r, xml_path_val (D := D) element tag_names None = Return r →
          ∃ s, r = Text s).
Proof.
  unfold xml_path_val. split.
  - intros tag. by eapply (proj1 (xml_walk_default _ _ _)).
  - intros [s|d'] Hr; [by exists s|].
    by eapply (proj2 (xml_walk_default _ _ _)) in Hr.
Qed.

(** * The summary: elevation gain and maxima *)

Lemma rolling_mean_lookup (w m : nat) (xs : Series) (i : nat) (x : fval) :
  xs !! i = Some x →
  rolling_mean w m xs !! i
  = Some (let obs := finite_obs (window w i xs) in
          if (m <=? length obs)%nat
          then Fin (Qsum obs / Qnat (length obs)) else NaN).
Proof. intros Hx. unfold rolling_mean. by rewrite list_lookup_imap, Hx. Qed.

Lemma rolling_mean_NaN_or_Fin (w m : nat) (xs : Series) (v : fval) :
  v ∈ rolling_mean w m xs → v = NaN ∨ ∃ q, v = Fin q.
Proof.
  intros Hv. unfold rolling_mean in Hv.
  apply elem_of_lookup_imap_1 in Hv as (i & x & -> & _). cbv zeta.
  destruct (_ <=? _)%nat; [right; by eexists|by left].
Qed.

Lemma diff_NaN_or_Fin (xs : Series) (v : fval) :
  Forall (λ x, x = NaN ∨ ∃ q, x = Fin q) xs →
  v ∈ diff xs → v = NaN ∨ ∃ q, v = Fin q.
Proof.
  intros Hxs Hv. unfold diff in Hv.
  apply elem_of_lookup_zip_with in Hv as (i & x & p & -> & Hx & Hp).
  assert (p = NaN ∨ ∃ q, p = Fin q) as Hp'.
  { unfold shift in Hp. apply lookup_take_Some in Hp as [Hp _].
    destruct i as [|i]; [injection Hp as <-; by left|].
    simpl in Hp. apply list_elem_of_lookup_2 in Hp.
    by eapply Forall_forall in Hxs. }
  apply list_elem_of_lookup_2 in Hx. eapply Forall_forall in Hxs; [|done].
  destruct Hxs as [->|[a ->]]; [by left|].
  destruct Hp' as [->|[b ->]]; [by left|]. right. by eexists.
Qed.

Lemma series_sum_nonneg (xs : Series) :
  Forall (λ x, ∃ q, x = Fin q ∧ (0 <= q)%Q) xs →
  ∃ s, series_sum xs = Fin s ∧ (0 <= s)%Q.
Proof.
  intros Hxs. unfold series_sum. rewrite dropna_finite.
  - by apply foldl_fadd_nonneg.
  - eapply Forall_impl; [exact Hxs|]. intros x (q & -> & _). by exists q.
Qed.

(** With fewer than seven rows no two consecutive six-row means exist. *)
Lemma short_climb_is_missing (xs : Series) :
  (length xs <= 6)%nat →
  Forall (λ c, c = NaN) (diff (rolling_mean 6 6 xs)).
Proof.
  intros Hlen. apply Forall_forall. intros v Hv. unfold diff in Hv.
  apply elem_of_lookup_zip_with in Hv as (i & x & p & -> & Hx & Hp).
  assert (i < length xs)%nat as Hi.
  { apply lookup_lt_Some in Hx. by rewrite length_rolling_mean in Hx. }
  assert (∀ j y, (j < 5)%nat → rolling_mean 6 6 xs !! j = Some y → y = NaN)
    as Hearly.
  { intros j y Hj Hy.
    destruct (lookup_lt_is_Some_2 xs j) as [z Hz].
    { apply lookup_lt_Some in Hy. by rewrite length_rolling_mean in Hy. }
    rewrite (rolling_mean_lookup _ _ _ _ z Hz) in Hy.
    apply (inj Some) in Hy. subst y. cbv zeta. pose proof (length_finite_obs (window 6 j xs)) as Hobs.
    rewrite length_window in Hobs.
    destruct (_ <=? _)%nat eqn:E; [|done].
    apply Nat.leb_le in E. lia. }
  destruct (decide (i < 5)%nat) as [Hlt|Hge].
  - by rewrite (Hearly i x Hlt Hx).
  - assert (i = 5)%nat as -> by lia.
    unfold shift in Hp. apply lookup_take_Some in Hp as [Hp _]. simpl in Hp.
    rewrite (Hearly 4%nat p ltac:(lia) Hp). apply fsub_NaN_r.
Qed.

Lemma filter_all_false {A} (P : A → Prop) `{∀ x, Decision (P x)}
    (l : list A) :
  Forall (λ x, ¬ P x) l → filter P l = [].
Proof.
  induction 1 as [|x l Hx _ IH]; [done|]. by rewrite filter_cons_False.
Qed.

Section NormalizerSummaryValues.
Variable geodesic : fval * fval → fval * fval → fval.

(** X22: elevation gain.  Whenever at least one row survives, the
    elevation gain of the summary is a finite number that is not negative;
    with six surviving rows or fewer it is 0 whatever the climb, because a
    six-row mean needs six rows and a climb needs two such means. *)
Theorem elevation_gain_nonnegative (df : list RawSample) (meta : Meta)
    (min_kph : Q) (out : list CleanedSample) (meta' : Meta) :
  _process_activity geodesic df meta min_kph = Ok (out, meta') →
  out ≠ [] →
  ∃ s q, m_summary meta' = Some s
         ∧ s_elevation s = Fin q
         ∧ (0 <= q)%Q
         ∧ ((length out <= 6)%nat → s_elevation s = Fin 0).
Proof.
  intros H Hne.
  apply process_activity_rows in H
    as (mv & ds & Hstep & Hrows & _ & _ & _ & _ & Hsum).
  cbv zeta in Hrows, Hsum.
  set (kept := kept_rows min_kph (round_clip_movement mv)) in *.
  assert (length out = length kept) as Hlen by (by rewrite Hrows, length_imap).
  rewrite decide_False in Hsum by (intros E; rewrite E in Hrows; by subst).
  set (elev := select kept (elevation <$> (clamp_sample <$> df))) in *.
  set (climb := diff (rolling_mean 6 6 elev)).
  assert (Forall (λ x, ∃ q, x = Fin q ∧ (0 <= q)%Q)
                 (filter (λ c, fgtb c (Fin 0)) climb)) as Hpos.
  { apply Forall_forall. intros c Hc.
    apply list_elem_of_filter in Hc as [Hgt Hc].
    apply diff_NaN_or_Fin in Hc as [->|[q ->]]; [done| |].
    - exists q. split; [done|]. apply Is_true_true in Hgt.
      unfold fgtb in Hgt. simpl in Hgt. apply Qlt_bool_true in Hgt. lra.
    - apply Forall_forall. intros x. apply rolling_mean_NaN_or_Fin. }
  destruct (series_sum_nonneg _ Hpos) as (s & Hs & Hs0).
  eexists _, (Qround_dec 1 s). split; [exact Hsum|].
  unfold summarize. cbn [s_elevation]. fold climb.
  split; [by rewrite Hs|]. split; [by apply (Qround_dec_ge 1 s 0)|].
  intros Hshort.
  assert (filter (λ c, fgtb c (Fin 0)) climb = []) as ->; [|done].
  apply filter_all_false.
  eapply Forall_impl; [apply short_climb_is_missing|].
  - unfold elev, select. rewrite length_fmap. lia.
  - intros c -> Hgt. exact Hgt.
Qed.

(** X23: the summary maxima are readings of the cleaned frame.  The
    maximum heart rate, power and temperature of the summary are each
    either missing or the value some cleaned row carries in that column. *)
Theorem summary_maxima_attained (df : list RawSample) (meta : Meta)
    (min_kph : Q) (out : list CleanedSample) (meta' : Meta) (s : Summary) :
  _process_activity geodesic df meta min_kph = Ok (out, meta') →
  m_summary meta' = Some s →
  (s_hr_max s = NaN ∨ ∃ r, r ∈ out ∧ c_hr r = s_hr_max s)
  ∧ (s_power_max s = NaN ∨ ∃ r, r ∈ out ∧ c_power r = s_power_max s)
  ∧ (s_temp_max s = NaN ∨ ∃ r, r ∈ out ∧ c_temp r = s_temp_max s).
Proof.
  intros H Hs.
  apply process_activity_rows in H
    as (mv & ds & Hstep & Hrows & _ & _ & _ & _ & Hsum).
  cbv zeta in Hrows, Hsum. rewrite Hs in Hsum.
  apply (inj Some) in Hsum.
  set (kept := kept_rows min_kph (round_clip_movement mv)) in *.
  destruct (decide (kept = [])) as [Hnil|Hne].
  { subst s. repeat split; by left. }
  assert (∀ (g : CleanedSample → fval) (col : Series),
            g <$> out = select kept col →
            series_max (select kept col) = NaN
            ∨ ∃ r, r ∈ out ∧ g r = series_max (select kept col)) as Hmax.
  { intros g col Hg. rewrite <- Hg.
    destruct (series_max_elem (g <$> out)) as [Hnan|Hin]; [by left|right].
    apply list_elem_of_fmap in Hin as (r & Hr & Hin). by exists r. }
  subst s. unfold summarize. cbn [s_hr_max s_power_max s_temp_max].
  repeat split; apply Hmax; rewrite Hrows; unfold select;
    by apply fmap_imap_ignore.
Qed.

End NormalizerSummaryValues.

(** * The properties at sample inputs *)

(** C1 at three Garmin records in metres: the maximum is 1200, so the
    column is divided by 1000. *)
Lemma fit_distance_unit_metres :
  is_Some (garmin_record 0 0 !! "timestamp")
  ∧ ∃ rows,
      fit_rows records_metres = Ok rows
      ∧ distance <$> rows = [Fin 0; Fin 600; Fin 1200]
      ∧ isnull (series_max (distance <$> rows)) = false
      ∧ ∃ df meta',
          fit_frame records_metres (meta_of_sport "") = Ok (df, meta')
          ∧ distance <$> df
            = (λ d, fdiv d (Fin 1000)) <$> [Fin 0; Fin 600; Fin 1200].
Proof.
  assert (is_Some (garmin_record 0 0 !! "timestamp")) as Hts
    by (eexists; vm_compute; reflexivity).
  split; [exact Hts|].
  destruct (fit_rows records_metres) as [rows|e] eqn:Hrows;
    [|by vm_compute in Hrows].
  exists rows.
  assert (distance <$> rows = [Fin 0; Fin 600; Fin 1200]) as Hcol.
  { vm_compute in Hrows. injection Hrows as <-. reflexivity. }
  assert (isnull (series_max (distance <$> rows)) = false) as Hmax
    by (rewrite Hcol; vm_compute; reflexivity).
  split; [reflexivity|]. split; [exact Hcol|]. split; [exact Hmax|].
  destruct (fit_distance_unit (garmin_record 0 0)
              [garmin_record 1 600; garmin_record 2 1200]
              (meta_of_sport "") rows Hts Hrows Hmax)
    as (_ & df & meta' & Hframe & _ & Hmid & _).
  exists df, meta'. split; [exact Hframe|].
  rewrite <- Hcol. apply Hmid; rewrite Hcol; vm_compute; reflexivity.
Defined.

(** C2 at a trainer ride with a pause and a missing reading. *)
Lemma cleaned_durations_trainer :
  Sorted Z.le (dtime <$> df_trainer)
  ∧ ∃ out meta',
      _process_activity blind_geodesic df_trainer (meta_of_sport "ride") 3
      = Ok (out, meta')
      ∧ Sorted fle (c_duration <$> out)
      ∧ c_mov_duration <$> out = seq 0 (length out).
Proof.
  assert (Sorted Z.le (dtime <$> df_trainer)) as Hs
    by (repeat constructor; vm_compute; discriminate).
  split; [exact Hs|].
  destruct (_process_activity blind_geodesic df_trainer
              (meta_of_sport "ride") 3) as [[out meta']|e] eqn:E;
    [|by vm_compute in E].
  exists out, meta'. split; [reflexivity|].
  destruct (cleaned_durations blind_geodesic df_trainer _ 3 out meta' Hs E)
    as (H1 & H2 & _).
  split; [exact H1|exact H2].
Defined.

(** C9 at the same ride: the rows kept are exactly those with a finite
    movement of at least 3 km/h. *)
Lemma stationary_rows_removed_trainer :
  ∃ out meta' movement kept,
    _process_activity blind_geodesic df_trainer (meta_of_sport "ride") 3
    = Ok (out, meta')
    ∧ movement_column blind_geodesic df_trainer = Ok movement
    ∧ (∀ i, i ∈ kept
            ↔ ∃ q, movement !! i = Some (Fin q)
                   ∧ (min_movement 3 <= q)%Q)
    ∧ c_dtime <$> out = select kept (dtime <$> df_trainer).
Proof.
  destruct (_process_activity blind_geodesic df_trainer
              (meta_of_sport "ride") 3) as [[out meta']|e] eqn:E;
    [|by vm_compute in E].
  destruct (stationary_rows_removed blind_geodesic df_trainer _ 3 out meta' E)
    as (movement & kept & Hcol & _ & _ & Hkept & Hdt & _).
  exists out, meta', movement, kept. split; [reflexivity|].
  split; [exact Hcol|]. split; [exact Hkept|exact Hdt].
Defined.

(** C6 at the odometer jump: the one movement kept is the cap. *)
Lemma movement_capped_or_rounded_jump :
  ∃ out meta',
    _process_activity blind_geodesic df_jump (meta_of_sport "ride") 3
    = Ok (out, meta')
    ∧ ∀ v, v ∈ c_movement <$> out →
        ∃ q, v = Fin q ∧ (q <= max_movement)%Q
             ∧ (millimetre q ∨ q = max_movement).
Proof.
  destruct (_process_activity blind_geodesic df_jump
              (meta_of_sport "ride") 3) as [[out meta']|e] eqn:E;
    [|by vm_compute in E].
  exists out, meta'. split; [reflexivity|].
  exact (movement_capped_or_rounded blind_geodesic df_jump _ 3 out meta' E).
Defined.


(** C7 at a steady 200 W ride of 100 seconds, for the one-minute entry. *)
Lemma constant_power_curve_minute :
  length df_steady = 100%nat
  ∧ Forall (λ r, c_power r = Fin 200) df_steady
  ∧ 60%N ∈ periods
  ∧ (60 <= 100)%N
  ∧ calc_max_powers df_steady !! "60" = Some (PyNum (Fin 200)).
Proof.
  assert (length df_steady = 100%nat) as Hlen by reflexivity.
  assert (Forall (λ r, c_power r = Fin 200) df_steady) as Hall.
  { apply Forall_fmap, Forall_forall. by intros k _. }
  assert (60%N ∈ periods) as Hp by (apply (bool_decide_unpack _); by vm_compute).
  assert (60 <= 100)%N as Hle by done.
  repeat (split; [assumption|]).
  exact (constant_power_curve df_steady Hlen Hall 60%N Hp Hle).
Defined.

(** C10 at a ride whose first row is filtered out. *)
Lemma power_curve_short_windows_coasting :
  (1 <= length (curve_powers df_coasting_start))%nat
  ∧ calc_max_powers df_coasting_start !! "dtime" = Some (PyTime 7).
Proof.
  assert (1 <= length (curve_powers df_coasting_start))%nat as Hn
    by (vm_compute; lia).
  split; [exact Hn|].
  exact (proj1 (power_curve_short_windows (power_row 7 (Fin 5))
                  [power_row 8 (Fin 100); power_row 9 (Fin 300)] Hn)).
Defined.

(** C3 at a heart rate of 300 bpm: it is capped to 250. *)
Lemma clamp_never_exceeds_heart_rate :
  fgtb (hr faulty_row) (Fin 250) = true
  ∧ hr (clamp_sample faulty_row) = Fin 250
  ∧ fgtb (hr (clamp_sample faulty_row)) (hr faulty_row) = false.
Proof.
  assert (fgtb (hr faulty_row) (Fin 250) = true) as Habove by reflexivity.
  destruct (clamp_never_exceeds faulty_row HeartRate)
    as (_ & Hle & Hcap & _).
  split; [exact Habove|]. split; [exact (Hcap Habove)|exact Hle].
Defined.


(** ** Instances of the further properties *)

Lemma planar_geodesic_is_distance (p1 p2 : fval * fval) :
  is_distance (planar_geodesic p1 p2).
Proof.
  destruct p1 as [[| |a|] [| |b|]], p2 as [[| |c|] [| |d|]];
    try (by left).
  right. eexists. split; [reflexivity|].
  pose proof (Qabs_nonneg (a - c)). pose proof (Qabs_nonneg (b - d)).
  apply Qmult_le_0_compat; [done|].
  replace 0%Q with (0 + 0)%Q by reflexivity. by apply Qplus_le_compat.
Qed.

(** X2 at the five trainer rows. *)
Lemma cleaned_rows_subsequence_trainer :
  ∃ out meta',
    _process_activity blind_geodesic df_trainer (meta_of_sport "ride") 3
    = Ok (out, meta')
    ∧ cleaned_fix <$> out `sublist_of` raw_fix <$> df_trainer.
Proof.
  destruct (_process_activity blind_geodesic df_trainer
              (meta_of_sport "ride") 3) as [[out meta']|e] eqn:E;
    [|by vm_compute in E].
  exists out, meta'. split; [reflexivity|].
  exact (cleaned_rows_subsequence blind_geodesic df_trainer _ 3 out meta' E).
Defined.

(** X3 at two rows whose first, stationary row is dropped. *)
Lemma duration_from_first_input_row_jump :
  ∃ out meta',
    _process_activity blind_geodesic df_jump (meta_of_sport "ride") 3
    = Ok (out, meta')
    ∧ ∀ r, r ∈ out →
           c_duration r
           = Fin ((c_dtime r - dtime (trainer_row 0 (Fin 0))) # 1000000000).
Proof.
  destruct (_process_activity blind_geodesic df_jump
              (meta_of_sport "ride") 3) as [[out meta']|e] eqn:E;
    [|by vm_compute in E].
  exists out, meta'. split; [reflexivity|].
  exact (duration_from_first_input_row blind_geodesic
           (trainer_row 0 (Fin 0)) _ _ 3 out meta' E).
Defined.

(** X4 at the five trainer rows and two different libraries. *)
Lemma distance_branch_ignores_geodesic_trainer :
  isnull (distance (trainer_row 0 (Fin (5 # 1000)))) = false
  ∧ _process_activity grid_geodesic df_trainer (meta_of_sport "ride") 3
    = _process_activity blind_geodesic df_trainer (meta_of_sport "ride") 3.
Proof.
  assert (isnull (distance (trainer_row 0 (Fin (5 # 1000)))) = false) as Hd
    by reflexivity.
  split; [exact Hd|].
  exact (distance_branch_ignores_geodesic grid_geodesic blind_geodesic
           (trainer_row 0 (Fin (5 # 1000))) _ (meta_of_sport "ride") 3 Hd).
Defined.

(** X6 at three rows whose readings are all above the ceilings. *)
Lemma cleaned_values_within_ceilings_spikes :
  ∃ out meta',
    _process_activity blind_geodesic df_spikes (meta_of_sport "ride") 3
    = Ok (out, meta')
    ∧ ∀ r, r ∈ out →
           fgtb (c_elevation r) (Fin 9000) = false
           ∧ fgtb (c_hr r) (Fin 250) = false
           ∧ fgtb (c_power r) (Fin 2500) = false
           ∧ fgtb (c_cadence r) (Fin 210) = false
           ∧ fgtb (c_temp r) (Fin 55) = false
           ∧ fgtb (c_speed r) (Fin 100) = false.
Proof.
  destruct (_process_activity blind_geodesic df_spikes
              (meta_of_sport "ride") 3) as [[out meta']|e] eqn:E;
    [|by vm_compute in E].
  exists out, meta'. split; [reflexivity|].
  exact (cleaned_values_within_ceilings blind_geodesic df_spikes _ 3
           out meta' E).
Defined.

(** X7 at three outdoor rows. *)
Lemma gps_first_row_dropped_outdoor :
  isnull (distance (gps_row 0 (-6) 106)) = true
  ∧ (0 < 3)%Q
  ∧ ∃ out meta',
      _process_activity grid_geodesic df_gps (meta_of_sport "ride") 3
      = Ok (out, meta')
      ∧ cleaned_fix <$> out
        `sublist_of` raw_fix <$> [gps_row 1 (-59999 # 10000) 106;
                                  gps_row 2 (-59998 # 10000) 106].
Proof.
  assert (isnull (distance (gps_row 0 (-6) 106)) = true) as Hd
    by reflexivity.
  assert (0 < 3)%Q as Hpos by reflexivity.
  split; [exact Hd|]. split; [exact Hpos|].
  destruct (_process_activity grid_geodesic df_gps
              (meta_of_sport "ride") 3) as [[out meta']|e] eqn:E;
    [|by vm_compute in E].
  exists out, meta'. split; [reflexivity|].
  exact (gps_first_row_dropped grid_geodesic (gps_row 0 (-6) 106) _ _ 3
           out meta' Hd Hpos E).
Defined.

(** X8 at the five trainer rows. *)
Lemma summary_matches_last_row_trainer :
  ∃ out meta',
    _process_activity blind_geodesic df_trainer (meta_of_sport "ride") 3
    = Ok (out, meta')
    ∧ match last out with
      | None => out = [] ∧ m_summary meta' = Some empty_summary
      | Some r =>
          ∃ s, m_summary meta' = Some s
               ∧ s_distance s = c_distance r
               ∧ s_duration s = c_duration r
               ∧ s_mov_duration s = Fin (Qnat (c_mov_duration r))
               ∧ length out = S (c_mov_duration r)
      end.
Proof.
  destruct (_process_activity blind_geodesic df_trainer
              (meta_of_sport "ride") 3) as [[out meta']|e] eqn:E;
    [|by vm_compute in E].
  exists out, meta'. split; [reflexivity|].
  exact (summary_matches_last_row blind_geodesic df_trainer _ 3
           out meta' E).
Defined.

(** X9 at a record without any time after a well-formed one. *)
Lemma fit_records_without_time_untimed :
  ∃ rows,
    fit_rows [garmin_record 0 0] = Ok rows
    ∧ dict_get untimed_record "timestamp"
        (dict_get untimed_record "time" PyNone) = PyNone
    ∧ parse_fit_records blind_geodesic
        ([garmin_record 0 0] ++ untimed_record :: [garmin_record 2 9])
        (meta_of_sport "")
      = Raise (AssertionError "Unable to get time information in fit record").
Proof.
  destruct (fit_rows [garmin_record 0 0]) as [rows|e] eqn:Hrows;
    [|by vm_compute in Hrows].
  assert (dict_get untimed_record "timestamp"
            (dict_get untimed_record "time" PyNone) = PyNone) as Hbad
    by (vm_compute; reflexivity).
  exists rows. split; [reflexivity|]. split; [exact Hbad|].
  exact (proj2 (fit_records_without_time blind_geodesic (meta_of_sport ""))
           [garmin_record 0 0] untimed_record [garmin_record 2 9] rows
           Hrows Hbad).
Defined.

(** X10 at three Garmin records. *)
Lemma fit_frame_passthrough_garmin :
  ∃ df meta' rows,
    fit_frame records_metres (meta_of_sport "") = Ok (df, meta')
    ∧ fit_rows records_metres = Ok rows
    ∧ dtime <$> df
      = (λ t, (t + 7 * 3600 * 1000000000)%Z) <$> (dtime <$> rows)
    ∧ power <$> df = power <$> rows
    ∧ m_dtime meta' = head (dtime <$> df).
Proof.
  destruct (fit_frame records_metres (meta_of_sport ""))
    as [[df meta']|e] eqn:E; [|by vm_compute in E].
  destruct (fit_frame_passthrough records_metres (meta_of_sport "")
              df meta' E)
    as (rows & Hrows & Ht & _ & _ & _ & _ & Hp & _ & _ & _ & Hd & _).
  exists df, meta', rows. split; [reflexivity|]. split; [exact Hrows|].
  split; [exact Ht|]. split; [exact Hp|exact Hd].
Defined.

(** X11 at two records whose positions are in semicircles. *)
Lemma fit_semicircle_conversion_jakarta :
  is_Some (semicircle_record 0 (-71582788) 1264629268 !! "timestamp")
  ∧ ∃ first rows',
      fit_rows records_semicircles = Ok (first :: rows')
      ∧ ∃ df meta',
          fit_frame records_semicircles (meta_of_sport "") = Ok (df, meta')
          ∧ latt <$> df
            = (λ x, fmul x (Fin semicircle)) <$> (latt <$> first :: rows')
          ∧ long <$> df
            = (λ x, fmul x (Fin semicircle)) <$> (long <$> first :: rows').
Proof.
  assert (is_Some (semicircle_record 0 (-71582788) 1264629268
                   !! "timestamp")) as Hts
    by (eexists; vm_compute; reflexivity).
  split; [exact Hts|].
  destruct (fit_rows records_semicircles) as [[|first rows']|e] eqn:Hrows;
    [by vm_compute in Hrows| |by vm_compute in Hrows].
  exists first, rows'. split; [reflexivity|].
  destruct (fit_semicircle_conversion
              (semicircle_record 0 (-71582788) 1264629268)
              [semicircle_record 1 (-71581595) 1264629268]
              (meta_of_sport "") first rows' Hts Hrows)
    as (df & meta' & Hframe & Hpos & _).
  exists df, meta'. split; [exact Hframe|].
  assert (negb (isnull (latt first))
          && (fgtb (series_max (latt <$> first :: rows')) (Fin 90)
              || fltb (series_min (latt <$> first :: rows')) (Fin (-90)))
          = true) as Hcond.
  { vm_compute in Hrows. injection Hrows as <- <-. vm_compute. reflexivity. }
  rewrite Hcond in Hpos. exact Hpos.
Defined.

(** X12 at three Garmin records with power readings and no sport label. *)
Lemma fit_sport_guess_garmin :
  ∃ df meta',
    fit_frame records_metres (meta_of_sport "") = Ok (df, meta')
    ∧ m_sport meta' = "cycling"
    ∧ ∀ key, parse_fit_records blind_geodesic records_metres
               (meta_of_sport "") ≠ Raise (KeyError key).
Proof.
  destruct (fit_frame records_metres (meta_of_sport ""))
    as [[df meta']|e] eqn:E; [|by vm_compute in E].
  destruct (fit_sport_guess blind_geodesic records_metres
              (meta_of_sport "") df meta' E) as [_ Hguess].
  destruct (Hguess eq_refl) as (Hsport & Hkey & _).
  exists df, meta'. split; [reflexivity|]. split; [|exact Hkey].
  rewrite Hsport. reflexivity.
Defined.

(** X13 at three Garmin records in metres. *)
Lemma fit_distance_below_1000_garmin :
  is_Some (garmin_record 0 0 !! "timestamp")
  ∧ ∃ rows,
      fit_rows records_metres = Ok rows
      ∧ fltb (series_max (distance <$> rows)) (Fin 1000000) = true
      ∧ ∃ df meta',
          fit_frame records_metres (meta_of_sport "") = Ok (df, meta')
          ∧ fltb (series_max (distance <$> df)) (Fin 1000) = true.
Proof.
  assert (is_Some (garmin_record 0 0 !! "timestamp")) as Hts
    by (eexists; vm_compute; reflexivity).
  split; [exact Hts|].
  destruct (fit_rows records_metres) as [rows|e] eqn:Hrows;
    [|by vm_compute in Hrows].
  assert (fltb (series_max (distance <$> rows)) (Fin 1000000) = true)
    as Hmax.
  { vm_compute in Hrows. injection Hrows as <-. vm_compute. reflexivity. }
  exists rows. split; [reflexivity|]. split; [exact Hmax|].
  exact (fit_distance_below_1000 (garmin_record 0 0)
           [garmin_record 1 600; garmin_record 2 1200]
           (meta_of_sport "") rows Hts Hrows Hmax).
Defined.

(** X15 at a ride whose first row is filtered out, for the one-second
    entry. *)
Lemma power_curve_entries_bounded_coasting :
  1%N ∈ periods
  ∧ ∃ v,
      calc_max_powers df_coasting_start !! pretty 1%N = Some v
      ∧ ∃ x, v = PyNum x
             ∧ (x = NaN
                ∨ ∃ q top,
                    x = Fin q
                    ∧ series_max (curve_powers df_coasting_start) = Fin top
                    ∧ (20 <= q)%Q
                    ∧ (q <= Qround_dec 1 top)%Q
                    ∧ (Qround_dec 1 top <= 3000)%Q).
Proof.
  assert (1%N ∈ periods) as Hp by (apply (bool_decide_unpack _); by vm_compute).
  split; [exact Hp|].
  destruct (calc_max_powers df_coasting_start !! pretty 1%N) as [v|] eqn:E;
    [|by vm_compute in E].
  exists v. split; [reflexivity|].
  exact (power_curve_entries_bounded df_coasting_start 1%N v Hp E).
Defined.

(** X16 at the five trainer rows, whose fourth row has no distance. *)
Lemma missing_distance_drops_two_rows_trainer :
  isnull (distance (trainer_row 0 (Fin (5 # 1000)))) = false
  ∧ df_trainer !! 3%nat = Some (trainer_row 3 NaN)
  ∧ isnull (distance (trainer_row 3 NaN)) = true
  ∧ ∃ movement,
      movement_column blind_geodesic df_trainer = Ok movement
      ∧ movement !! 3%nat = Some NaN
      ∧ (3%nat ∉ kept_rows 3 movement)
      ∧ movement !! 4%nat = Some NaN
      ∧ (4%nat ∉ kept_rows 3 movement).
Proof.
  assert (isnull (distance (trainer_row 0 (Fin (5 # 1000)))) = false) as Hd
    by reflexivity.
  assert (df_trainer !! 3%nat = Some (trainer_row 3 NaN)) as Hi
    by reflexivity.
  assert (isnull (distance (trainer_row 3 NaN)) = true) as Hn
    by reflexivity.
  split; [exact Hd|]. split; [exact Hi|]. split; [exact Hn|].
  destruct (missing_distance_drops_two_rows blind_geodesic
              (trainer_row 0 (Fin (5 # 1000))) _ 3 3%nat
              (trainer_row 3 NaN) Hd Hi Hn)
    as (movement & Hmv & H3 & Hk3 & Hnext).
  destruct Hnext as [H4 Hk4]; [by eexists|].
  exists movement. split; [exact Hmv|]. split; [exact H3|].
  split; [exact Hk3|]. split; [exact H4|exact Hk4].
Defined.

(** X17 at three outdoor rows. *)
Lemma gps_distance_nondecreasing_outdoor :
  (∀ p1 p2, is_distance (planar_geodesic p1 p2))
  ∧ isnull (distance (gps_row 0 (-6) 106)) = true
  ∧ ∃ out meta',
      _process_activity planar_geodesic df_gps (meta_of_sport "ride") 3
      = Ok (out, meta')
      ∧ Sorted fle (c_distance <$> out).
Proof.
  assert (isnull (distance (gps_row 0 (-6) 106)) = true) as Hd
    by reflexivity.
  split; [exact planar_geodesic_is_distance|]. split; [exact Hd|].
  destruct (_process_activity planar_geodesic df_gps
              (meta_of_sport "ride") 3) as [[out meta']|e] eqn:E;
    [|by vm_compute in E].
  exists out, meta'. split; [reflexivity|].
  exact (gps_distance_nondecreasing planar_geodesic (gps_row 0 (-6) 106) _ _ 3
           out meta' planar_geodesic_is_distance Hd E).
Defined.

(** X19 at the track name of a GPX document. *)
Lemma xml_path_val_step_track_name :
  has_char pipe "trk" = false
  ∧ xml_path_val gpx_doc "trk|name" (Some ""%string)
    = Return (Text "Morning Ride").
Proof.
  assert (has_char pipe "trk" = false) as Hc by reflexivity.
  split; [exact Hc|].
  exact (proj1 (xml_path_val_step gpx_doc "trk" "name"
                  (Some ""%string) Hc)).
Defined.

(** X22 at the five trainer rows. *)
Lemma elevation_gain_nonnegative_trainer :
  ∃ out meta',
    _process_activity blind_geodesic df_trainer (meta_of_sport "ride") 3
    = Ok (out, meta')
    ∧ out ≠ []
    ∧ ∃ s, m_summary meta' = Some s ∧ s_elevation s = Fin 0.
Proof.
  destruct (_process_activity blind_geodesic df_trainer
              (meta_of_sport "ride") 3) as [[out meta']|e] eqn:E;
    [|by vm_compute in E].
  assert (out ≠ []) as Hne.
  { intros ->. by vm_compute in E. }
  assert (length out <= 6)%nat as Hlen.
  { vm_compute in E. injection E as <- _. vm_compute. lia. }
  exists out, meta'. split; [reflexivity|]. split; [exact Hne|].
  destruct (elevation_gain_nonnegative blind_geodesic df_trainer _ 3
              out meta' E Hne) as (s & q & Hs & _ & _ & Hzero).
  exists s. split; [exact Hs|exact (Hzero Hlen)].
Defined.

(** X23 at the five trainer rows. *)
Lemma summary_maxima_attained_trainer :
  ∃ out meta' s,
    _process_activity blind_geodesic df_trainer (meta_of_sport "ride") 3
    = Ok (out, meta')
    ∧ m_summary meta' = Some s
    ∧ (s_power_max s = NaN ∨ ∃ r, r ∈ out ∧ c_power r = s_power_max s).
Proof.
  destruct (_process_activity blind_geodesic df_trainer
              (meta_of_sport "ride") 3) as [[out meta']|e] eqn:E;
    [|by vm_compute in E].
  destruct (m_summary meta') as [s|] eqn:Hs.
  - exists out, meta', s. split; [reflexivity|]. split; [exact Hs|].
    exact (proj1 (proj2 (summary_maxima_attained blind_geodesic df_trainer _ 3
                           out meta' s E Hs))).
  - vm_compute in E. injection E as _ <-. by vm_compute in Hs.
Defined.
